(** * ospeedtest: the measurement engine of [speedtest.js]

    A shallow embedding of the request primitive ([makeRequest]), the latency
    probe ([pingTest]), the per-target runner ([testServer]), the programmatic
    entry point ([SpeedTest.run]) and the statistics of [displayStatistics],
    followed by the properties the specification states about them.

    Conventions of the embedding.
    - A JavaScript number that is measured or computed (clock readings,
      durations, speeds) is an IEEE 754 binary64 value: Rocq's primitive
      [float], whose operations are the ones JavaScript uses.
    - A JavaScript number that counts (bytes received, file size in MB, HTTP
      status) is a [Z]; it is converted with [number_of_Z] where the source
      mixes it with measured numbers.  Counts stay far below 2^53, where the
      two views coincide.
    - Strings are [string]; [null] and [undefined] are [None].
    - The outside world (clock, network, availability of the SOCKS module)
      is an explicit [World] threaded through a state-and-exception monad.
    - Writes to the terminal are not part of the model. *)

From Stdlib Require Import ZArith List String Ascii Bool Lia Floats DecimalString.
Import ListNotations.

Local Open Scope string_scope.
Local Open Scope Z_scope.

(** ** JavaScript numbers *)

Module JSNumber.

Definition number := float.

(** A count seen as a JavaScript number. *)
Definition number_of_Z (z : Z) : number := of_uint63 (Uint63.of_Z z).

(** [x === y] on numbers: IEEE equality ([NaN] differs from itself, the
    two zeros are equal). *)
Definition strict_eq (x y : number) : bool := (x =? y)%float.

(** Truthiness of a number: everything but [0], [-0] and [NaN]. *)
Definition truthy (x : number) : bool :=
  negb (is_nan x) && negb (is_zero x).

Definition is_pos_zero (x : number) : bool := Leibniz.eqb x zero.
Definition is_neg_zero (x : number) : bool := Leibniz.eqb x neg_zero.

(** One step of [Math.max] (ECMAScript: a [NaN] argument makes the result
    [NaN]; [+0] is larger than [-0]). *)
Definition max_step (highest x : number) : number :=
  if is_nan highest then highest
  else if is_nan x then nan
  else if is_pos_zero x && is_neg_zero highest then x
  else if (highest <? x)%float then x
  else highest.

Definition min_step (lowest x : number) : number :=
  if is_nan lowest then lowest
  else if is_nan x then nan
  else if is_neg_zero x && is_pos_zero lowest then x
  else if (x <? lowest)%float then x
  else lowest.

(** [Math.max(...l)] and [Math.min(...l)]. *)
Definition Math_max (l : list number) : number := fold_left max_step l neg_infinity.
Definition Math_min (l : list number) : number := fold_left min_step l infinity.

(** [l.reduce((a, b) => a + b, 0)]. *)
Definition sum (l : list number) : number :=
  fold_left (fun a b => (a + b)%float) l zero.

(** [l.reduce((a, b) => a + b, 0) / l.length]. *)
Definition average (l : list number) : number :=
  (sum l / number_of_Z (Z.of_nat (List.length l)))%float.

End JSNumber.
Import JSNumber.

(** ** Strings, [null] and template literals *)

Module JSString.

(** Truthiness of a possibly absent string: [null], [undefined] and the
    empty string are falsy. *)
Definition truthy (s : option string) : bool :=
  match s with
  | None => false
  | Some s => negb (s =? "")%string
  end.

(** The decimal rendering a template literal gives an integer. *)
Definition string_of_Z (z : Z) : string := NilZero.string_of_int (Z.to_int z).

End JSString.

(** ** The server catalog ([TEST_SERVERS]) *)

Module Server.
Record t := make {
  name : string;
  url : string;
  size : Z
}.

Definition eq_dec (a b : t) : {a = b} + {a <> b}.
Proof. decide equality; [apply Z.eq_dec | apply string_dec | apply string_dec]. Defined.
End Server.

(** An object literal mapping provider keys to arrays of servers: its own
    properties, in insertion order. *)
Definition Catalog := list (string * list Server.t).

Definition TEST_SERVERS : Catalog :=
  [ ("cloudflare",
     [ Server.make "Cloudflare 10MB" "https://speed.cloudflare.com/__down?bytes=10485760" 10;
       Server.make "Cloudflare 100MB" "https://speed.cloudflare.com/__down?bytes=104857600" 100 ]);
    ("cachefly",
     [ Server.make "CacheFly 10MB" "http://cachefly.cachefly.net/10mb.test" 10;
       Server.make "CacheFly 100MB" "http://cachefly.cachefly.net/100mb.test" 100 ]);
    ("linode",
     [ Server.make "Linode London" "http://speedtest.london.linode.com/100MB-london.bin" 100;
       Server.make "Linode Newark" "http://speedtest.newark.linode.com/100MB-newark.bin" 100;
       Server.make "Linode Frankfurt" "http://speedtest.frankfurt.linode.com/100MB-frankfurt.bin" 100;
       Server.make "Linode Singapore" "http://speedtest.singapore.linode.com/100MB-singapore.bin" 100 ]);
    ("vultr",
     [ Server.make "Vultr Amsterdam" "https://ams-nl-ping.vultr.com/vultr.com.100MB.bin" 100;
       Server.make "Vultr Frankfurt" "https://fra-de-ping.vultr.com/vultr.com.100MB.bin" 100;
       Server.make "Vultr London" "https://lon-gb-ping.vultr.com/vultr.com.100MB.bin" 100;
       Server.make "Vultr Tokyo" "https://hnd-jp-ping.vultr.com/vultr.com.100MB.bin" 100 ]);
    ("bunny",
     [ Server.make "Bunny CDN 10MB" "https://test.b-cdn.net/10mb.bin" 10;
       Server.make "Bunny CDN 100MB" "https://test.b-cdn.net/100mb.bin" 100 ]);
    ("scaleway",
     [ Server.make "Scaleway Paris 10MB" "https://scaleway.testdebit.info/10M/10M.iso" 100;
       Server.make "Scaleway Paris 100MB" "https://scaleway.testdebit.info/100M/100M.iso" 10 ]);
    ("ovh",
     [ Server.make "OVH 10MB" "https://proof.ovh.net/files/10Mb.dat" 10;
       Server.make "OVH 100MB" "https://proof.ovh.net/files/100Mb.dat" 100 ]) ].

(** [Object.keys(o)]. *)
Definition Object_keys (o : Catalog) : list string := map fst o.

(** The own property [key] of [o], if there is one. *)
Fixpoint own_property (o : Catalog) (key : string) : option (list Server.t) :=
  match o with
  | [] => None
  | (k, v) :: rest => if (k =? key)%string then Some v else own_property rest key
  end.

(** The property names every object literal inherits from
    [Object.prototype]; each holds a function (or, for [__proto__], the
    prototype object): a truthy value that is not iterable. *)
Definition Object_prototype_keys : list string :=
  [ "constructor"; "hasOwnProperty"; "isPrototypeOf"; "propertyIsEnumerable";
    "toLocaleString"; "toString"; "valueOf"; "__proto__";
    "__defineGetter__"; "__defineSetter__"; "__lookupGetter__"; "__lookupSetter__" ].

Definition inherited_key (key : string) : bool :=
  existsb (fun k => (k =? key)%string) Object_prototype_keys.

(** The value of the expression [o[key]]. *)
Inductive Property :=
| PUndefined
| PServers (servers : list Server.t)
| PInherited.

Definition get_property (o : Catalog) (key : string) : Property :=
  match own_property o key with
  | Some servers => PServers servers
  | None => if inherited_key key then PInherited else PUndefined
  end.

(** ** The outside world *)

(** A transport handle: [null], or the SOCKS agent built from a proxy URL. *)
Definition Agent := option string.

(** What [http.request] is asked for, as far as the caller chooses it. *)
Record Request := mkRequest {
  req_url : string;
  req_agent : Agent;
  req_timeout : Z
}.

(** A chunk of a response body (a [Buffer]). *)
Definition Chunk := list Byte.byte.

(** The events that follow the response once it has been handed to the
    callback: ['data'] events, closed by ['end'], by ['error'] on the
    response, or by ['timeout'] on the request.

    The response to a redirected request is never read, but the handlers of
    that request stay attached to the promise while the followed fetch
    runs.  For such a response [BodyError] and [BodyTimeout] say that an
    ['error'] or the ['timeout'] of the redirecting request reaches them
    before the followed fetch settles, and [BodyEnd] that none does. *)
Inductive Body :=
| BodyEnd (chunks : list Chunk)
| BodyError (chunks : list Chunk) (message : string)
| BodyTimeout (chunks : list Chunk).

(** The fate of one request: the first event that reaches one of the
    handlers [makeRequest] installs, ['error'] or ['timeout'] on the
    request, or the response. *)
Inductive Exchange :=
| RequestError (message : string)
| RequestTimeout
| Response (statusCode : Z) (location : option string) (body : Body).

(** The clock is a tape of the readings made by the code that is awaited:
    [makeRequest], [pingTest] and the body of [testServer].  The callback
    of a running interval reads the clock too, every 100 ms, and uses the
    value for the progress line only; the progress line is not modelled,
    and those readings have no place on the tape.  What is kept of an
    interval is that it is running. *)
Record World := mkWorld {
  (** [clock n] is what the [n]-th of these calls of [performance.now()]
      returns. *)
  clock : nat -> number;
  (** The number of these calls made so far. *)
  ticks : nat;
  (** How the network answers the successive requests, each as a function
      of the request; a request made after the last one gets no answer and
      runs into its timeout. *)
  network : list (Request -> Exchange);
  (** Whether [new URL(url)] accepts the string. *)
  URL_parses : string -> bool;
  (** Whether [socks-proxy-agent] can be imported and builds an agent for
      the proxy string. *)
  socks_proxy_agent : string -> bool;
  (** The number of intervals set by [setInterval] and not cleared.  While
      there is one, the event loop is not empty and the process does not
      end by itself. *)
  intervals : nat
}.

Definition with_ticks (w : World) (n : nat) : World :=
  mkWorld (clock w) n (network w) (URL_parses w) (socks_proxy_agent w) (intervals w).

Definition with_network (w : World) (net : list (Request -> Exchange)) : World :=
  mkWorld (clock w) (ticks w) net (URL_parses w) (socks_proxy_agent w) (intervals w).

Definition with_intervals (w : World) (n : nat) : World :=
  mkWorld (clock w) (ticks w) (network w) (URL_parses w) (socks_proxy_agent w) n.

(** ** Exceptions and the monad of effectful code *)

Record JSError := mkError { message : string }.

Inductive Completion (A : Type) :=
| Normal (value : A)
| Throw (err : JSError).
Arguments Normal {A} value.
Arguments Throw {A} err.

Definition M (A : Type) : Type := World -> Completion A * World.

Definition ret {A} (a : A) : M A := fun w => (Normal a, w).

Definition throw {A} (err : JSError) : M A := fun w => (Throw err, w).

Definition bind {A B} (m : M A) (k : A -> M B) : M B :=
  fun w =>
    match m w with
    | (Normal a, w') => k a w'
    | (Throw err, w') => (Throw err, w')
    end.

(** [try { body } catch (err) { handler }]. *)
Definition try_catch {A} (body : M A) (handler : JSError -> M A) : M A :=
  fun w =>
    match body w with
    | (Normal a, w') => (Normal a, w')
    | (Throw err, w') => handler err w'
    end.

Declare Scope js_scope.
Delimit Scope js_scope with js.
Notation "x <- m ;; k" := (bind m (fun x => k))
  (at level 100, m at next level, right associativity) : js_scope.
Local Open Scope js_scope.

(** [for (const x of xs) { ys.push(await f(x)) }]. *)
Fixpoint for_each {A B} (f : A -> M B) (xs : list A) : M (list B) :=
  match xs with
  | [] => ret []
  | x :: xs' =>
      y <- f x ;;
      ys <- for_each f xs' ;;
      ret (y :: ys)
  end.

(** [performance.now()]. *)
Definition performance_now : M number :=
  fun w => (Normal (clock w (ticks w)), with_ticks w (S (ticks w))).

(** [setInterval(callback, 100)], for the callback of [testServer]. *)
Definition setInterval : M unit :=
  fun w => (Normal tt, with_intervals w (S (intervals w))).

(** [clearInterval(updateInterval)], for an interval that is running. *)
Definition clearInterval : M unit :=
  fun w => (Normal tt, with_intervals w (Nat.pred (intervals w))).

(** The world once one more request has been made: the clock has been read
    for its [startTime] and the network has given its answer. *)
Definition after_request (w : World) : World :=
  with_network (with_ticks w (S (ticks w))) (tl (network w)).

(** ** [makeRequest] *)

Module FetchResult.
(** The object [makeRequest] resolves with. *)
Record t := make {
  bytes : Z;
  duration : number;
  speedMbps : number;
  speedMBps : number
}.
End FetchResult.

(** [[301, 302, 307, 308].includes(statusCode)]. *)
Definition redirect_status (statusCode : Z) : bool :=
  existsb (Z.eqb statusCode) [301; 302; 307; 308].

(** The ['data'] handler: it adds the chunk's length to [totalBytes] and
    pushes the chunk on [chunks]. *)
Definition on_data (state : Z * list Chunk) (chunk : Chunk) : Z * list Chunk :=
  (fst state + Z.of_nat (List.length chunk), (snd state ++ [chunk])%list).

(** The ['end'] handler. *)
Definition on_end (startTime : number) (state : Z * list Chunk) : M FetchResult.t :=
  let totalBytes := fst state in
  endTime <- performance_now ;;
  let duration := ((endTime - startTime) / 1000)%float in
  ret (FetchResult.make
         totalBytes
         duration
         (number_of_Z totalBytes * 8 / duration / 1000000)%float
         (number_of_Z totalBytes / duration / 1048576)%float).

(** The part of [handleResponse] below the redirect branch. *)
Definition receive (startTime : number) (statusCode : Z) (body : Body) : M FetchResult.t :=
  if negb (statusCode =? 200) && negb (statusCode =? 204) then
    throw (mkError ("HTTP " ++ JSString.string_of_Z statusCode))
  else
    match body with
    | BodyEnd chunks => on_end startTime (fold_left on_data chunks (0, []))
    | BodyError _ message => throw (mkError message)
    | BodyTimeout _ => throw (mkError "Timeout")
    end.

(** The redirect branch of [handleResponse]: [follow target] is the
    recursive call, whose outcome is passed to [resolve] and [reject].
    The branch returns without detaching [req.on('error', reject)] and
    [req.on('timeout', ...)], and the promise keeps the first settlement it
    gets.  A followed fetch whose URL does not parse rejects at once.
    Otherwise the followed fetch makes its request, and an ['error'] or the
    ['timeout'] of the redirecting request that comes before it settles
    rejects the promise; what the abandoned fetch does from then on reaches
    nobody. *)
Definition redirected (follow : string -> M FetchResult.t) (target : string) (body : Body)
    : M FetchResult.t :=
  fun w =>
    if negb (URL_parses w target) then follow target w
    else
      match body with
      | BodyEnd _ => follow target w
      | BodyError _ message => (Throw (mkError message), after_request w)
      | BodyTimeout _ => (Throw (mkError "Timeout"), after_request w)
      end.

(** [handleResponse], with the recursive call of the redirect branch as
    [follow].  The branch is taken when the status is a redirect and
    [res.headers.location] is truthy, that is a non-empty string; the body
    of the redirecting response is then never read. *)
Definition handleResponse (follow : string -> M FetchResult.t) (startTime : number)
    (statusCode : Z) (location : option string) (body : Body) : M FetchResult.t :=
  match location with
  | Some target =>
      if redirect_status statusCode && JSString.truthy location
      then redirected follow target body
      else receive startTime statusCode body
  | None => receive startTime statusCode body
  end.

(** [makeRequest] on the answers [net] that are still to come: every
    request uses up one of them, so a redirect continues on the rest. *)
Fixpoint makeRequest_on (net : list (Request -> Exchange))
    (url : string) (agent : Agent) (timeout : Z) {struct net} : M FetchResult.t :=
  startTime <- performance_now ;;
  fun w =>
    if negb (URL_parses w url) then throw (mkError "Invalid URL") w
    else
      match net with
      | [] => throw (mkError "Timeout") w
      | answer :: net' =>
          let w := with_network w net' in
          match answer (mkRequest url agent timeout) with
          | RequestError message => throw (mkError message) w
          | RequestTimeout => throw (mkError "Timeout") w
          | Response statusCode location body =>
              handleResponse (fun target => makeRequest_on net' target agent timeout)
                startTime statusCode location body w
          end
      end.

Definition makeRequest (url : string) (agent : Agent) (timeout : Z) : M FetchResult.t :=
  fun w => makeRequest_on (network w) url agent timeout w.

(** ** [pingTest] *)

Definition pingTest (url : string) (agent : Agent) : M (option number) :=
  startTime <- performance_now ;;
  try_catch
    (_ <- makeRequest url agent 5000 ;;
     endTime <- performance_now ;;
     ret (Some (endTime - startTime)%float))
    (fun _ => ret None).

(** ** [testServer] *)

Module TestResult.
Record t := make {
  name : string;
  url : string;
  size : Z;
  ping : option number;
  speedMbps : number;
  speedMBps : number;
  duration : number;
  error : option string
}.

Definition set_ping (r : t) (p : option number) : t :=
  make (name r) (url r) (size r) p (speedMbps r) (speedMBps r) (duration r) (error r).

(** The three assignments that follow a successful transfer. *)
Definition set_speed (r : t) (f : FetchResult.t) : t :=
  make (name r) (url r) (size r) (ping r)
    (FetchResult.speedMbps f) (FetchResult.speedMBps f) (FetchResult.duration f)
    (error r).

Definition set_error (r : t) (e : option string) : t :=
  make (name r) (url r) (size r) (ping r) (speedMbps r) (speedMBps r) (duration r) e.
End TestResult.

(** [testResult] is a local object the [try] block updates in place, and
    [catch] sees it as it is when the exception is thrown: the handler is
    written after each update with the object of that moment.

    With [showProgress] the transfer is wrapped in a progress display: the
    clock is read for it, an interval is set to redraw it, and the interval
    is cleared after the [await], which a transfer that fails never gets
    past.  What is written to the terminal is not modelled. *)
Definition testServer (server : Server.t) (agent : Agent) (showProgress : bool)
    : M TestResult.t :=
  let testResult :=
    TestResult.make (Server.name server) (Server.url server) (Server.size server)
      None zero zero zero None in
  let catch (testResult : TestResult.t) (err : JSError) : M TestResult.t :=
    ret (TestResult.set_error testResult (Some (message err))) in
  try_catch
    (pingTime <- pingTest (Server.url server) agent ;;
     let testResult := TestResult.set_ping testResult pingTime in
     try_catch
       (if showProgress then
          startTime <- performance_now ;;
          updateInterval <- setInterval ;;
          result <- makeRequest (Server.url server) agent 30000 ;;
          _ <- clearInterval ;;
          ret (TestResult.set_speed testResult result)
        else
          result <- makeRequest (Server.url server) agent 30000 ;;
          ret (TestResult.set_speed testResult result))
       (catch testResult))
    (catch testResult).

(** ** [SpeedTest] *)

Record Options := mkOptions {
  servers : list string;
  sizes : option (list Z);
  proxy : option string
}.

(** The constructor's normalisation of the options it is given ([sizes]
    already as numbers). *)
Definition SpeedTest_constructor (servers : option (list string))
    (sizes : option (list Z)) (proxy : option string) : Options :=
  let servers := match servers with Some l => l | None => ["cachefly"] end in
  let proxy := if JSString.truthy proxy then proxy else None in
  if existsb (String.eqb "all") servers
  then mkOptions (Object_keys TEST_SERVERS) sizes proxy
  else mkOptions servers sizes proxy.

(** [createAgent(proxy, isHttps)]. *)
Definition createAgent (proxy : option string) (isHttps : bool) : M Agent :=
  match proxy with
  | Some p =>
      if JSString.truthy proxy
      then fun w => if socks_proxy_agent w p then ret (Some p) w else ret None w
      else ret None
  | None => ret None
  end.

(** [!sizes || sizes.includes(server.size)]. *)
Definition size_selected (sizes : option (list Z)) (server : Server.t) : bool :=
  match sizes with
  | None => true
  | Some l => existsb (Z.eqb (Server.size server)) l
  end.

(** The loop that builds [tests], in [run] and, word for word, in [main].
    [tests] is the array built so far.  A key whose property is [undefined]
    is skipped; iterating a value that is not iterable raises a
    [TypeError]. *)
Fixpoint build_tests (catalog : Catalog) (servers : list string) (sizes : option (list Z))
    (tests : list Server.t) : Completion (list Server.t) :=
  match servers with
  | [] => Normal tests
  | serverKey :: rest =>
      match get_property catalog serverKey with
      | PUndefined => build_tests catalog rest sizes tests
      | PServers l =>
          build_tests catalog rest sizes (tests ++ filter (size_selected sizes) l)%list
      | PInherited => Throw (mkError "TEST_SERVERS[serverKey] is not iterable")
      end
  end.

(** A value stored in the statistics object. *)
Inductive JSValue :=
| JUndefined
| JNumber (x : number)
| JString (s : string).

(** An object built by assignments to fresh property names: the properties
    in insertion order. *)
Definition JSObject := list (string * JSValue).

(** [!r.error]. *)
Definition succeeded (r : TestResult.t) : bool :=
  negb (JSString.truthy (TestResult.error r)).

(** [validResults.find(r => r.speedMbps === x)?.name]. *)
Definition find_name (validResults : list TestResult.t) (x : number) : JSValue :=
  match find (fun r => strict_eq (TestResult.speedMbps r) x) validResults with
  | Some r => JString (TestResult.name r)
  | None => JUndefined
  end.

(** The block "Calculate statistics" of [run] (the same block serves the
    JSON output of [main]). *)
Definition calculate_statistics (results : list TestResult.t) : JSObject :=
  let validResults := filter succeeded results in
  if (0 <? List.length validResults)%nat then
    let speeds := map TestResult.speedMbps validResults in
    let maxSpeed := Math_max speeds in
    let minSpeed := Math_min speeds in
    [ ("averageSpeed", JNumber (average speeds));
      ("maxSpeed", JNumber maxSpeed);
      ("minSpeed", JNumber minSpeed);
      ("bestServer", find_name validResults maxSpeed);
      ("worstServer", find_name validResults minSpeed) ]
  else [].

Record RunResult := mkRunResult {
  results : list TestResult.t;
  statistics : JSObject
}.

Definition lift {A} (c : Completion A) : M A := fun w => (c, w).

Definition run (options : Options) : M RunResult :=
  agent <- createAgent (proxy options) true ;;
  tests <- lift (build_tests TEST_SERVERS (servers options) (sizes options) []) ;;
  results <- for_each (fun test => testServer test agent false) tests ;;
  ret (mkRunResult results (calculate_statistics results)).

(** ** [displayStatistics] *)

(** [o[key]] is created with [fresh] when it is missing, then updated with
    [f]; a new property goes last.  (The keys used below are provider keys,
    ["undefined"] and size labels, none of which an empty object inherits.) *)
Fixpoint update_property {V} (key : string) (fresh : V) (f : V -> V)
    (o : list (string * V)) : list (string * V) :=
  match o with
  | [] => [(key, f fresh)]
  | (k, v) :: rest =>
      if (k =? key)%string then (k, f v) :: rest
      else (k, v) :: update_property key fresh f rest
  end.

(** [Object.keys(TEST_SERVERS).find(key =>
      TEST_SERVERS[key].some(s => s.name === result.name))]. *)
Definition provider_of (result : TestResult.t) : option string :=
  find (fun key =>
          match get_property TEST_SERVERS key with
          | PServers l =>
              existsb (fun s => (Server.name s =? TestResult.name result)%string) l
          | _ => false
          end)
       (Object_keys TEST_SERVERS).

(** A property key computed from a value that may be [undefined]. *)
Definition property_key (k : option string) : string :=
  match k with
  | Some s => s
  | None => "undefined"
  end.

(** [serverStats] after the first [forEach]: per provider, the speeds and
    the truthy pings. *)
Definition server_stats (validResults : list TestResult.t)
    : list (string * (list number * list number)) :=
  fold_left
    (fun serverStats result =>
       update_property (property_key (provider_of result)) ([], [])
         (fun stats =>
            ((fst stats ++ [TestResult.speedMbps result])%list,
             match TestResult.ping result with
             | Some p => if JSNumber.truthy p then (snd stats ++ [p])%list else snd stats
             | None => snd stats
             end))
         serverStats)
    validResults [].

(** [sizeStats] after the second [forEach]. *)
Definition size_stats (validResults : list TestResult.t) : list (string * list number) :=
  fold_left
    (fun sizeStats result =>
       update_property (JSString.string_of_Z (TestResult.size result) ++ "MB") []
         (fun speeds => (speeds ++ [TestResult.speedMbps result])%list)
         sizeStats)
    validResults [].

(** What [displayStatistics] prints, without the formatting. *)
Inductive Printed :=
| NoSuccessfulTests
| Statistics
    (byProvider : list (string * (number * option number)))
    (bySize : list (string * number))
    (avgSpeed : number)
    (best : string) (maxSpeed : number)
    (worst : string) (minSpeed : number).

Definition displayStatistics (results : list TestResult.t) : Completion Printed :=
  let validResults := filter succeeded results in
  if (List.length validResults =? 0)%nat then Normal NoSuccessfulTests
  else
    let byProvider :=
      map (fun entry =>
             let stats := snd entry in
             let avgSpeed := average (fst stats) in
             let avgPing :=
               if (0 <? List.length (snd stats))%nat
               then Some (average (snd stats)) else None in
             (fst entry, (avgSpeed, avgPing)))
          (server_stats validResults) in
    let bySize :=
      map (fun entry => (fst entry, average (snd entry))) (size_stats validResults) in
    let allSpeeds := map TestResult.speedMbps validResults in
    let avgSpeed := average allSpeeds in
    let maxSpeed := Math_max allSpeeds in
    let minSpeed := Math_min allSpeeds in
    let bestResult := find (fun r => strict_eq (TestResult.speedMbps r) maxSpeed) validResults in
    let worstResult := find (fun r => strict_eq (TestResult.speedMbps r) minSpeed) validResults in
    match bestResult, worstResult with
    | Some best, Some worst =>
        Normal (Statistics byProvider bySize avgSpeed
                  (TestResult.name best) maxSpeed (TestResult.name worst) minSpeed)
    | None, _ =>
        Throw (mkError "Cannot read properties of undefined (reading 'name')")
    | _, None =>
        Throw (mkError "Cannot read properties of undefined (reading 'name')")
    end.

(** ** Notions the specification uses *)

Module NumberOrder.

(** The position of a number on the extended real line, as a triple
    ordered lexicographically. *)
Definition key (s : spec_float) : Z * Z * Z :=
  match s with
  | S754_nan => (3, 0, 0)
  | S754_infinity true => (-2, 0, 0)
  | S754_infinity false => (2, 0, 0)
  | S754_zero _ => (0, 0, 0)
  | S754_finite true m e => (-1, - e, - Zpos m)
  | S754_finite false m e => (1, e, Zpos m)
  end.

Definition lex (a b : Z * Z * Z) : comparison :=
  let '(a1, a2, a3) := a in
  let '(b1, b2, b3) := b in
  match a1 ?= b1 with
  | Eq => match a2 ?= b2 with
          | Eq => a3 ?= b3
          | c => c
          end
  | c => c
  end.

(** [m] is an element of [l] that no element of [l] exceeds. *)
Definition is_maximum (m : number) (l : list number) : Prop :=
  In m l /\ forall x, In x l -> (x <=? m)%float = true.

(** [m] is an element of [l] that exceeds no element of [l]. *)
Definition is_minimum (m : number) (l : list number) : Prop :=
  In m l /\ forall x, In x l -> (m <=? x)%float = true.

(** No element of [l] is [NaN]. *)
Definition all_numbers (l : list number) : Prop :=
  Forall (fun x => is_nan x = false) l.

End NumberOrder.
Import NumberOrder.

(** [r] is the first element of [l], in the order of [l], that satisfies [p]. *)
Definition is_first_such {A} (p : A -> bool) (l : list A) (r : A) : Prop :=
  exists before after,
    l = (before ++ r :: after)%list /\ p r = true /\
    forall x, In x before -> p x = false.

(** The overall statistics of the specification, for the error-free
    results [validResults]: the mean, the largest and the smallest of their
    speeds, and the first result that reaches the largest (the smallest). *)
Record Overall := mkOverall {
  averageSpeedMbps : number;
  maxSpeedMbps : number;
  minSpeedMbps : number;
  bestServer : TestResult.t;
  worstServer : TestResult.t
}.

Definition is_overall (validResults : list TestResult.t) (o : Overall) : Prop :=
  let speeds := map TestResult.speedMbps validResults in
  averageSpeedMbps o = (sum speeds / number_of_Z (Z.of_nat (List.length speeds)))%float /\
  is_maximum (maxSpeedMbps o) speeds /\
  is_minimum (minSpeedMbps o) speeds /\
  is_first_such (fun r => strict_eq (TestResult.speedMbps r) (maxSpeedMbps o))
    validResults (bestServer o) /\
  is_first_such (fun r => strict_eq (TestResult.speedMbps r) (minSpeedMbps o))
    validResults (worstServer o).

(** The statistics object that carries the overall statistics [o]. *)
Definition overall_object (o : Overall) : JSObject :=
  [ ("averageSpeed", JNumber (averageSpeedMbps o));
    ("maxSpeed", JNumber (maxSpeedMbps o));
    ("minSpeed", JNumber (minSpeedMbps o));
    ("bestServer", JString (TestResult.name (bestServer o)));
    ("worstServer", JString (TestResult.name (worstServer o))) ].

(** A successful result with the given name and speed. *)
Definition measured (name : string) (speedMbps : number) : TestResult.t :=
  TestResult.make name "http://example.test/file" 10 None speedMbps
    (speedMbps / 8)%float 1%float None.

(** The scenario of the specification: speeds 50.0 and 200.0, no errors. *)
Definition scenario_50_200 : list TestResult.t :=
  [ measured "slow" 50%float; measured "fast" 200%float ].

(** [answers] redirect a fetch of [A], step by step, to [B]: each answer,
    asked for the URL reached so far with this agent and timeout, has a
    redirect status and a non-empty [Location], the next URL. *)
Fixpoint redirect_chain (parses : string -> bool) (agent : Agent) (timeout : Z)
    (A : string) (answers : list (Request -> Exchange)) (B : string) : Prop :=
  match answers with
  | [] => A = B
  | answer :: rest =>
      parses A = true /\
      exists statusCode target body,
        answer (mkRequest A agent timeout) = Response statusCode (Some target) body /\
        In statusCode [301; 302; 307; 308] /\
        target <> "" /\
        redirect_chain parses agent timeout target rest B
  end.

(** A [redirect_chain] on which no redirecting request disturbs the fetch
    that follows it: none of them emits an ['error'] or runs into its
    ['timeout'] before the followed fetch settles. *)
Fixpoint undisturbed_chain (parses : string -> bool) (agent : Agent) (timeout : Z)
    (A : string) (answers : list (Request -> Exchange)) (B : string) : Prop :=
  match answers with
  | [] => A = B
  | answer :: rest =>
      parses A = true /\
      exists statusCode target chunks,
        answer (mkRequest A agent timeout) =
          Response statusCode (Some target) (BodyEnd chunks) /\
        In statusCode [301; 302; 307; 308] /\
        target <> "" /\
        undisturbed_chain parses agent timeout target rest B
  end.

(** [n] requests later. *)
Fixpoint after_requests (n : nat) (w : World) : World :=
  match n with
  | O => w
  | S n' => after_requests n' (after_request w)
  end.

(** The number of bytes in a sequence of chunks. *)
Definition total_length (chunks : list Chunk) : Z :=
  Z.of_nat (list_sum (map (@List.length Byte.byte) chunks)).

(** Two bodies, two exchanges, two networks and two worlds that differ at
    most in the content of the chunks received, not in their lengths. *)
Inductive body_alike : Body -> Body -> Prop :=
| alike_end c1 c2 :
    map (@List.length Byte.byte) c1 = map (@List.length Byte.byte) c2 ->
    body_alike (BodyEnd c1) (BodyEnd c2)
| alike_error c1 c2 message :
    map (@List.length Byte.byte) c1 = map (@List.length Byte.byte) c2 ->
    body_alike (BodyError c1 message) (BodyError c2 message)
| alike_timeout c1 c2 :
    map (@List.length Byte.byte) c1 = map (@List.length Byte.byte) c2 ->
    body_alike (BodyTimeout c1) (BodyTimeout c2).

Inductive exchange_alike : Exchange -> Exchange -> Prop :=
| alike_request_error message :
    exchange_alike (RequestError message) (RequestError message)
| alike_request_timeout :
    exchange_alike RequestTimeout RequestTimeout
| alike_response statusCode location b1 b2 :
    body_alike b1 b2 ->
    exchange_alike (Response statusCode location b1) (Response statusCode location b2).

Definition network_alike (n1 n2 : list (Request -> Exchange)) : Prop :=
  Forall2 (fun a1 a2 => forall req, exchange_alike (a1 req) (a2 req)) n1 n2.

Definition world_alike (w1 w2 : World) : Prop :=
  (forall n, clock w1 n = clock w2 n) /\
  ticks w1 = ticks w2 /\
  network_alike (network w1) (network w2) /\
  (forall u, URL_parses w1 u = URL_parses w2 u) /\
  (forall p, socks_proxy_agent w1 p = socks_proxy_agent w2 p).

(** The two speeds of a result are derived from its bytes and duration. *)
Definition derived_speeds (r : FetchResult.t) : Prop :=
  FetchResult.speedMbps r =
    (number_of_Z (FetchResult.bytes r) * 8 / FetchResult.duration r / 1000000)%float /\
  FetchResult.speedMBps r =
    (number_of_Z (FetchResult.bytes r) / FetchResult.duration r / 1048576)%float.

(** ** Sample worlds *)

(** A clock that is read once a second. *)
Definition steady_clock (n : nat) : number := number_of_Z (1000 * Z.of_nat n).

(** A chunk of [n] bytes, all equal to [b]. *)
Definition payload (b : Byte.byte) (n : nat) : Chunk := repeat b n.

(** A site that redirects [http://a.test/] to [http://b.test/], serves
    1250 bytes in two chunks there, answers 404 at [http://gone.test/] and
    refuses every other connection; [b] fills the chunks. *)
Definition site (b : Byte.byte) (req : Request) : Exchange :=
  if (req_url req =? "http://a.test/")%string then
    Response 302 (Some "http://b.test/") (BodyEnd [payload b 20])
  else if (req_url req =? "http://b.test/")%string then
    Response 200 None (BodyEnd [payload b 1000; payload b 250])
  else if (req_url req =? "http://gone.test/")%string then
    Response 404 None (BodyEnd [])
  else RequestError "connect ECONNREFUSED 127.0.0.1:80".

(** A world in which the next [n] requests reach [site b]. *)
Definition site_world (b : Byte.byte) (n : nat) : World :=
  mkWorld steady_clock 0 (repeat (site b) n) (fun _ => true) (fun _ => false) 0.

(** The speed fields of a result are at their defaults. *)
Definition speed_fields_zero (r : TestResult.t) : Prop :=
  TestResult.speedMbps r = 0%float /\
  TestResult.speedMBps r = 0%float /\
  TestResult.duration r = 0%float.

(** The target a result was measured on. *)
Definition target_of (r : TestResult.t) : Server.t :=
  Server.make (TestResult.name r) (TestResult.url r) (TestResult.size r).

(** [r] is what [testServer] can return for [server]: the target's name,
    URL and size, and either no error or speed fields left at zero. *)
Definition tested (server : Server.t) (r : TestResult.t) : Prop :=
  target_of r = server /\
  (TestResult.error r <> None -> speed_fields_zero r).

(** The world just after a reading of the clock. *)
Definition tick (w : World) : World := with_ticks w (S (ticks w)).

(** The result has its error set, to any string. *)
Definition has_error (r : TestResult.t) : bool :=
  match TestResult.error r with
  | Some _ => true
  | None => false
  end.

(** The world in which the transfer of [testServer] starts, given the one
    its probe has left: with [showProgress], the clock has been read once
    more and the progress interval is running. *)
Definition progress_started (showProgress : bool) (w : World) : World :=
  if showProgress then with_intervals (tick w) (S (intervals w)) else w.

(** The world [testServer] leaves after a transfer that succeeded, given
    the one the transfer has left: with [showProgress], the progress
    interval is cleared. *)
Definition progress_stopped (showProgress : bool) (w : World) : World :=
  if showProgress then with_intervals w (Nat.pred (intervals w)) else w.

(** ** Target selection, as the specification words it *)

(** The targets of provider [key] that pass the size filter, in the order
    of the catalog; none when the catalog has no such provider. *)
Definition matching_targets (catalog : Catalog) (sizes : option (list Z)) (key : string)
    : list Server.t :=
  match own_property catalog key with
  | Some l => filter (size_selected sizes) l
  | None => []
  end.

(** The matching targets of the requested keys, one requested key after
    the other. *)
Definition selected_targets (catalog : Catalog) (servers : list string)
    (sizes : option (list Z)) : list Server.t :=
  flat_map (matching_targets catalog sizes) servers.

(** The filter over the catalog: every target of the catalog, in catalog
    order, whose provider key is requested and whose size passes. *)
Definition catalog_filter (catalog : Catalog) (servers : list string)
    (sizes : option (list Z)) : list Server.t :=
  flat_map
    (fun entry =>
       if existsb (String.eqb (fst entry)) servers
       then filter (size_selected sizes) (snd entry)
       else [])
    catalog.


(** ** More sample worlds *)

(** A clock whose readings are 125/128 ms apart, so that a transfer between
    two consecutive readings lasts 2^-10 s and 15625 bytes make 128 Mbps. *)
Definition fast_clock (n : nat) : number := (number_of_Z (Z.of_nat n) * 0.9765625)%float.

(** The answer to a request that delivers [k * 15625] bytes in one chunk. *)
Definition deliver (k : nat) : Request -> Exchange :=
  fun _ => Response 200 None (BodyEnd [payload Byte.x00 (Z.to_nat (Z.of_nat k * 15625))]).


(** A clock read at 0 ms, at 100 ms and, from then on, at 40100 ms. *)
Definition slow_clock (n : nat) : number :=
  match n with
  | O => 0%float
  | S O => 100%float
  | _ => 40100%float
  end.

(** A world in which the first answer redirects to [http://new.test/], the
    redirect is followed after 100 ms and the second answer delivers 78125
    bytes in the 40 s that follow; the timeout of the redirecting request
    fires meanwhile. *)
Definition slow_redirect_world : World :=
  mkWorld slow_clock 0
    [ (fun _ => Response 302 (Some "http://new.test/") (BodyTimeout [])); deliver 5 ]
    (fun _ => true) (fun _ => false) 0.

(** A world for the two targets of [cachefly]: the first transfer delivers
    78125 bytes, at 640 Mbps; every connection to the second target fails
    with an error whose message is empty (as an [AggregateError] has). *)
Definition half_silent_world : World :=
  mkWorld fast_clock 0
    [ deliver 0; deliver 5; (fun _ => RequestError ""); (fun _ => RequestError "") ]
    (fun _ => true) (fun _ => false) 0.

(** A target that answers 404 in [site_world]. *)
Definition gone : Server.t := Server.make "Gone" "http://gone.test/" 10.

(** [key] is a provider of the catalog. *)
Definition known_provider (catalog : Catalog) (key : string) : bool :=
  match own_property catalog key with
  | Some _ => true
  | None => false
  end.

(** [o[key]] is a value inherited from [Object.prototype]. *)
Definition inherited_property (catalog : Catalog) (key : string) : bool :=
  match get_property catalog key with
  | PInherited => true
  | _ => false
  end.

(** The first target of provider [cachefly]. *)
Definition cachefly_10MB : Server.t :=
  Server.make "CacheFly 10MB" "http://cachefly.cachefly.net/10mb.test" 10.


(** ** [SpeedTest.ping] *)

Module PingEndpoint.
Record t := make {
  name : string;
  url : string
}.
End PingEndpoint.

Definition PING_ENDPOINTS : list PingEndpoint.t :=
  [ PingEndpoint.make "Google CDN" "https://www.gstatic.com/generate_204";
    PingEndpoint.make "Facebook CDN" "https://www.facebook.com/favicon.ico";
    PingEndpoint.make "Cloudflare Check" "https://cp.cloudflare.com/";
    PingEndpoint.make "Firefox Portal" "https://detectportal.firefox.com/success.txt" ].

Module PingResult.
Record t := make {
  name : string;
  url : string;
  ping : option number;
  error : option string
}.
End PingResult.

(** The body of the loop of [ping]. *)
Definition ping_endpoint (agent : Agent) (endpoint : PingEndpoint.t) : M PingResult.t :=
  pingTime <- pingTest (PingEndpoint.url endpoint) agent ;;
  ret (PingResult.make (PingEndpoint.name endpoint) (PingEndpoint.url endpoint) pingTime
         (match pingTime with
          | None => Some "Failed"
          | Some _ => None
          end)).

Definition SpeedTest_ping (options : Options) : M (list PingResult.t) :=
  agent <- createAgent (proxy options) true ;;
  for_each (ping_endpoint agent) PING_ENDPOINTS.

(** ** Objects used as maps, and strings *)

(** [o[key]] for an object built by [update_property]: its own property,
    if any. *)
Fixpoint property {V} (o : list (string * V)) (key : string) : option V :=
  match o with
  | [] => None
  | (k, v) :: rest => if (k =? key)%string then Some v else property rest key
  end.

(** [s.slice(n)], for [n] within an ASCII prefix of [s]. *)
Fixpoint slice (n : nat) (s : string) : string :=
  match n, s with
  | O, _ => s
  | S n', String _ rest => slice n' rest
  | S _, EmptyString => EmptyString
  end.

(** [s.split(sep)] for a one-character separator: the pieces between the
    separators, at least one. *)
Fixpoint split (sep : ascii) (s : string) : list string :=
  match s with
  | EmptyString => [EmptyString]
  | String c rest =>
      if Ascii.eqb c sep then EmptyString :: split sep rest
      else
        match split sep rest with
        | piece :: pieces => String c piece :: pieces
        | [] => [String c EmptyString]
        end
  end.

(** ** [parseArgs] *)

Record CliOptions := mkCliOptions {
  cli_proxy : option string;
  cli_servers : list string;
  (** The elements are the results of [parseInt]: an integer, or [None]
      for [NaN]. *)
  cli_sizes : option (list (option Z));
  cli_json : bool;
  cli_ping : bool;
  cli_help : bool
}.

Section ParseArgs.

(** Two built-in functions: [String.prototype.toLowerCase], and [parseInt]
    of one argument, whose result is an integer or [NaN] ([None]). *)
Variable toLowerCase : string -> string.
Variable parseInt : string -> option Z.

(** The body of the loop over the arguments. *)
Definition parse_arg (options : CliOptions) (arg : string) : CliOptions :=
  if (arg =? "--help")%string || (arg =? "-h")%string then
    mkCliOptions (cli_proxy options) (cli_servers options) (cli_sizes options)
      (cli_json options) (cli_ping options) true
  else if (arg =? "--json")%string || (arg =? "-j")%string then
    mkCliOptions (cli_proxy options) (cli_servers options) (cli_sizes options)
      true (cli_ping options) (cli_help options)
  else if (arg =? "--ping")%string then
    mkCliOptions (cli_proxy options) (cli_servers options) (cli_sizes options)
      (cli_json options) true (cli_help options)
  else if prefix "--proxy=" arg then
    mkCliOptions (Some (slice 8 arg)) (cli_servers options) (cli_sizes options)
      (cli_json options) (cli_ping options) (cli_help options)
  else if prefix "--servers=" arg then
    let servers := toLowerCase (slice 10 arg) in
    mkCliOptions (cli_proxy options)
      (if (servers =? "all")%string then Object_keys TEST_SERVERS else split "," servers)
      (cli_sizes options) (cli_json options) (cli_ping options) (cli_help options)
  else if prefix "--sizes=" arg then
    let sizes := slice 8 arg in
    mkCliOptions (cli_proxy options) (cli_servers options)
      (Some (map parseInt (split "," sizes)))
      (cli_json options) (cli_ping options) (cli_help options)
  else if prefix "socks://" arg || prefix "socks4://" arg || prefix "socks5://" arg then
    mkCliOptions (Some arg) (cli_servers options) (cli_sizes options)
      (cli_json options) (cli_ping options) (cli_help options)
  else options.

(** [parseArgs], given [process.argv.slice(2)] and
    [process.env.SOCKS_PROXY]. *)
Definition parseArgs (args : list string) (SOCKS_PROXY : option string) : CliOptions :=
  let options :=
    fold_left parse_arg args (mkCliOptions None ["cachefly"] None false false false) in
  if negb (JSString.truthy (cli_proxy options)) && JSString.truthy SOCKS_PROXY
  then mkCliOptions SOCKS_PROXY (cli_servers options) (cli_sizes options)
         (cli_json options) (cli_ping options) (cli_help options)
  else options.

End ParseArgs.

(** ** [displayResults] and [main] *)

(** The sizes a list of [parseInt] results can match: [NaN] equals no size
    of a server under [includes]. *)
Definition integer_sizes (sizes : option (list (option Z))) : option (list Z) :=
  match sizes with
  | None => None
  | Some l => Some (flat_map (fun s => match s with Some z => [z] | None => [] end) l)
  end.

Section Main.

(** The built-in [Number.prototype.toFixed]. *)
Variable toFixed : number -> Z -> string.

(** What [displayResults] does besides printing: for an error-free row,
    [' '.repeat(8 - result.duration.toFixed(2).length)] throws a
    [RangeError] when the count is negative; the rows after it are not
    reached. *)
Fixpoint displayResults (results : list TestResult.t) : Completion unit :=
  match results with
  | [] => Normal tt
  | result :: rest =>
      if JSString.truthy (TestResult.error result) then displayResults rest
      else
        let count := 8 - Z.of_nat (String.length (toFixed (TestResult.duration result) 2)) in
        if count <? 0
        then Throw (mkError ("Invalid count value: " ++ JSString.string_of_Z count))
        else displayResults rest
  end.

(** How the process ends: its exit code, [None] when it does not end, and
    the object printed as JSON, if one is. *)
Record Ending := mkEnding {
  exitCode : option Z;
  json_output : option RunResult
}.

(** [process.exit(code)]: the process ends at once. *)
Definition process_exit (code : Z) : M Ending :=
  ret (mkEnding (Some code) None).

(** [main] returns without a call of [process.exit].  The process then
    ends, with code 0, when the event loop is empty; an interval that was
    never cleared keeps it alive. *)
Definition return_from_main (json : option RunResult) : M Ending :=
  fun w =>
    (Normal (mkEnding (if (intervals w =? 0)%nat then Some 0 else None) json), w).

(** [main], from the options [parseArgs] returned. *)
Definition main (options : CliOptions) : M Ending :=
  if cli_help options then process_exit 0
  else
    agent <- createAgent (cli_proxy options) true ;;
    tests <- lift (build_tests TEST_SERVERS (cli_servers options)
                     (integer_sizes (cli_sizes options)) []) ;;
    if (List.length tests =? 0)%nat then process_exit 1
    else
      results <- for_each
                   (fun test => testServer test agent
                                  (negb (cli_json options) && cli_ping options))
                   tests ;;
      if cli_json options then
        let validResults := filter succeeded results in
        let stats :=
          if (0 <? List.length validResults)%nat then
            let speeds := map TestResult.speedMbps validResults in
            [ ("averageSpeed", JNumber (average speeds));
              ("maxSpeed", JNumber (Math_max speeds));
              ("minSpeed", JNumber (Math_min speeds));
              ("bestServer", find_name validResults (Math_max speeds));
              ("worstServer", find_name validResults (Math_min speeds)) ]
          else [] in
        return_from_main (Some (mkRunResult results stats))
      else
        _ <- lift (displayResults results) ;;
        _ <- lift (displayStatistics results) ;;
        return_from_main None.

(** The script run directly: [main().catch(...)] exits with code 1. *)
Definition main_process (options : CliOptions) : M Ending :=
  try_catch (main options) (fun _ => process_exit 1).

End Main.

(** ** Sample worlds for the further properties *)

(** A world whose URL parser accepts absolute [http] and [https] URLs only
    and whose first answer redirects to a relative path. *)
Definition relative_redirect_world : World :=
  mkWorld steady_clock 0
    [ fun _ => Response 301 (Some "/new/path") (BodyEnd []) ]
    (fun u => prefix "http://" u || prefix "https://" u)
    (fun _ => false) 0.

(** A world in which every connection fails with an error whose message is
    empty (as an [AggregateError] has). *)
Definition silent_failure_world (n : nat) : World :=
  mkWorld steady_clock 0 (repeat (fun _ => RequestError "") n)
    (fun _ => true) (fun _ => false) 0.

(** A world whose clock stands still and whose answers have status 204 and
    an empty body. *)
Definition frozen_world (n : nat) : World :=
  mkWorld (fun _ => 5%float) 0 (repeat (fun _ => Response 204 None (BodyEnd [])) n)
    (fun _ => true) (fun _ => false) 0.

(** A world without network: no request is answered. *)
Definition dead_world : World :=
  mkWorld steady_clock 0 [] (fun _ => true) (fun _ => false) 0.

(** The results of the two targets of [cachefly] in [frozen_world]: no
    byte in no time. *)
Definition frozen_results : list TestResult.t :=
  [ TestResult.make "CacheFly 10MB" "http://cachefly.cachefly.net/10mb.test" 10
      (Some 0%float) nan nan 0%float None;
    TestResult.make "CacheFly 100MB" "http://cachefly.cachefly.net/100mb.test" 100
      (Some 0%float) nan nan 0%float None ].

(** ** Groups of results *)






(** The two tables [displayStatistics] prints. *)
Definition printed_by_provider (printed : Completion Printed)
    : list (string * (number * option number)) :=
  match printed with
  | Normal (Statistics byProvider _ _ _ _ _ _) => byProvider
  | _ => []
  end.

Definition printed_by_size (printed : Completion Printed) : list (string * number) :=
  match printed with
  | Normal (Statistics _ bySize _ _ _ _ _) => bySize
  | _ => []
  end.


(** ** Reading the command line *)

(** The proxy an argument sets, if it sets one: the rest of [--proxy=...],
    or a whole [socks://], [socks4://] or [socks5://] URL. *)
Definition proxy_value (arg : string) : option string :=
  if prefix "--proxy=" arg then Some (slice 8 arg)
  else if prefix "socks://" arg || prefix "socks4://" arg || prefix "socks5://" arg
  then Some arg
  else None.

Definition is_proxy_arg (arg : string) : bool :=
  match proxy_value arg with
  | Some _ => true
  | None => false
  end.

(** The argument is one of those [parseArgs] acts on. *)
Definition recognized (arg : string) : bool :=
  (arg =? "--help")%string || (arg =? "-h")%string ||
  (arg =? "--json")%string || (arg =? "-j")%string ||
  (arg =? "--ping")%string ||
  prefix "--proxy=" arg || prefix "--servers=" arg || prefix "--sizes=" arg ||
  prefix "socks://" arg || prefix "socks4://" arg || prefix "socks5://" arg.

(** Stand-ins for the two built-in functions, to run examples:
    [toLowerCase] on the letters A to Z, and [parseInt] on strings that
    begin with decimal digits. *)
Fixpoint sample_toLowerCase (s : string) : string :=
  match s with
  | EmptyString => EmptyString
  | String c rest =>
      let n := nat_of_ascii c in
      String (if (65 <=? n)%nat && (n <=? 90)%nat then ascii_of_nat (n + 32) else c)
        (sample_toLowerCase rest)
  end.

Fixpoint leading_digits (s : string) (acc : option Z) : option Z :=
  match s with
  | EmptyString => acc
  | String c rest =>
      let n := nat_of_ascii c in
      if (48 <=? n)%nat && (n <=? 57)%nat
      then leading_digits rest
             (Some (10 * match acc with Some z => z | None => 0 end + Z.of_nat (n - 48)))
      else acc
  end.

Definition sample_parseInt (s : string) : option Z := leading_digits s None.

(** [toFixed] stand-in for examples in which every duration is zero. *)
Definition sample_toFixed (x : number) (digits : Z) : string := "0.00".

(** * Properties *)

(** ** Comparison of JavaScript numbers *)

Module NumberFacts.

Lemma SFcompare_key (a b : spec_float) :
  a <> S754_nan -> b <> S754_nan -> SFcompare a b = Some (lex (key a) (key b)).
Proof.
  intros Ha Hb.
  destruct a as [sa|sa| |sa ma ea], b as [sb|sb| |sb mb eb]; try congruence;
    try (destruct sa, sb; reflexivity); try (destruct sa; reflexivity);
    try (destruct sb; reflexivity).
  destruct sa, sb; try reflexivity; cbn [SFcompare key lex];
    rewrite Pos.compare_cont_spec; f_equal.
  change (-1 ?= -1) with Eq; cbv iota.
  destruct (Z.compare_spec ea eb), (Z.compare_spec (- ea) (- eb)); try lia; try reflexivity.
  destruct (Pos.compare_spec ma mb), (Z.compare_spec (- Zpos ma) (- Zpos mb));
    try lia; reflexivity.
Qed.

Lemma lex_refl a : lex a a = Eq.
Proof.
  destruct a as [[a1 a2] a3]; cbn [lex]. now rewrite !Z.compare_refl.
Qed.

Lemma lex_antisym a b : lex b a = CompOpp (lex a b).
Proof.
  destruct a as [[a1 a2] a3], b as [[b1 b2] b3]; cbn [lex].
  rewrite (Z.compare_antisym a1 b1), (Z.compare_antisym a2 b2), (Z.compare_antisym a3 b3).
  destruct (a1 ?= b1), (a2 ?= b2), (a3 ?= b3); reflexivity.
Qed.

Lemma lex_le_trans a b c : lex a b <> Gt -> lex b c <> Gt -> lex a c <> Gt.
Proof.
  destruct a as [[a1 a2] a3], b as [[b1 b2] b3], c as [[c1 c2] c3]; cbn [lex].
  destruct (Z.compare_spec a1 b1), (Z.compare_spec b1 c1), (Z.compare_spec a1 c1);
    try lia; try congruence;
    destruct (Z.compare_spec a2 b2), (Z.compare_spec b2 c2), (Z.compare_spec a2 c2);
    try lia; try congruence;
    destruct (Z.compare_spec a3 b3), (Z.compare_spec b3 c3), (Z.compare_spec a3 c3);
    try lia; congruence.
Qed.

Lemma not_nan_spec (x : number) : is_nan x = false <-> Prim2SF x <> S754_nan.
Proof.
  unfold is_nan. rewrite eqb_spec. unfold SFeqb. split.
  - intros H E. rewrite E in H. discriminate H.
  - intros H. rewrite (SFcompare_key _ _ H H), lex_refl. reflexivity.
Qed.

Section Comparable.
Variables x y : number.
Hypothesis Hx : is_nan x = false.
Hypothesis Hy : is_nan y = false.

Lemma leb_key :
  (x <=? y)%float = match lex (key (Prim2SF x)) (key (Prim2SF y)) with
                    | Gt => false
                    | _ => true
                    end.
Proof.
  rewrite leb_spec. unfold SFleb.
  rewrite SFcompare_key by (now apply not_nan_spec).
  now destruct (lex _ _).
Qed.

Lemma ltb_key :
  (x <? y)%float = match lex (key (Prim2SF x)) (key (Prim2SF y)) with
                   | Lt => true
                   | _ => false
                   end.
Proof.
  rewrite ltb_spec. unfold SFltb.
  rewrite SFcompare_key by (now apply not_nan_spec).
  now destruct (lex _ _).
Qed.

Lemma ltb_leb : (x <? y)%float = true -> (x <=? y)%float = true.
Proof. rewrite leb_key, ltb_key. now destruct (lex _ _). Qed.

Lemma not_ltb_leb : (x <? y)%float = false -> (y <=? x)%float = true.
Proof.
  rewrite ltb_key, leb_spec. unfold SFleb.
  rewrite SFcompare_key by (now apply not_nan_spec).
  rewrite (lex_antisym (key (Prim2SF x))). now destruct (lex _ _).
Qed.
End Comparable.

Lemma leb_refl (x : number) : is_nan x = false -> (x <=? x)%float = true.
Proof. intros H. now rewrite (leb_key x x H H), lex_refl. Qed.

Lemma eqb_refl (x : number) : is_nan x = false -> strict_eq x x = true.
Proof. unfold is_nan, strict_eq. now destruct (x =? x)%float. Qed.

Lemma leb_trans (x y z : number) :
  is_nan x = false -> is_nan y = false -> is_nan z = false ->
  (x <=? y)%float = true -> (y <=? z)%float = true -> (x <=? z)%float = true.
Proof.
  intros Hx Hy Hz. rewrite (leb_key x y Hx Hy), (leb_key y z Hy Hz), (leb_key x z Hx Hz).
  intros Hxy Hyz.
  assert (H := lex_le_trans (key (Prim2SF x)) (key (Prim2SF y)) (key (Prim2SF z))).
  destruct (lex (key (Prim2SF x)) (key (Prim2SF y))); try discriminate;
    destruct (lex (key (Prim2SF y)) (key (Prim2SF z))); try discriminate;
    destruct (lex (key (Prim2SF x)) (key (Prim2SF z))); try reflexivity;
    exfalso; apply H; congruence.
Qed.

Lemma neg_infinity_least (x : number) :
  is_nan x = false -> (neg_infinity <=? x)%float = true.
Proof.
  intros Hx. rewrite (leb_key neg_infinity x eq_refl Hx).
  apply not_nan_spec in Hx.
  change (Prim2SF neg_infinity) with (S754_infinity true).
  destruct (Prim2SF x) as [s|s| |s m e]; try congruence;
    try (destruct s; reflexivity).
Qed.

Lemma infinity_greatest (x : number) :
  is_nan x = false -> (x <=? infinity)%float = true.
Proof.
  intros Hx. rewrite (leb_key x infinity Hx eq_refl).
  apply not_nan_spec in Hx.
  change (Prim2SF infinity) with (S754_infinity false).
  destruct (Prim2SF x) as [s|s| |s m e]; try congruence;
    try (destruct s; reflexivity).
Qed.

Lemma below_neg_infinity (x : number) :
  is_nan x = false -> (x <=? neg_infinity)%float = true -> x = neg_infinity.
Proof.
  intros Hx. rewrite (leb_key x neg_infinity Hx eq_refl).
  apply not_nan_spec in Hx.
  change (Prim2SF neg_infinity) with (S754_infinity true).
  intros H. apply Prim2SF_inj.
  change (Prim2SF neg_infinity) with (S754_infinity true).
  destruct (Prim2SF x) as [s|s| |s m e]; try congruence;
    destruct s; try reflexivity; discriminate H.
Qed.

Lemma above_infinity (x : number) :
  is_nan x = false -> (infinity <=? x)%float = true -> x = infinity.
Proof.
  intros Hx. rewrite (leb_key infinity x eq_refl Hx).
  apply not_nan_spec in Hx.
  change (Prim2SF infinity) with (S754_infinity false).
  intros H. apply Prim2SF_inj.
  change (Prim2SF infinity) with (S754_infinity false).
  destruct (Prim2SF x) as [s|s| |s m e]; try congruence;
    destruct s; try reflexivity; discriminate H.
Qed.

(** *** [Math.max] and [Math.min] *)

Lemma max_step_spec (h x : number) :
  is_nan h = false -> is_nan x = false ->
  is_nan (max_step h x) = false /\
  (max_step h x = h \/ max_step h x = x) /\
  (h <=? max_step h x)%float = true /\
  (x <=? max_step h x)%float = true.
Proof.
  intros Hh Hx. unfold max_step. rewrite Hh, Hx.
  destruct (is_pos_zero x && is_neg_zero h) eqn:Hz.
  - apply andb_true_iff in Hz. destruct Hz as [Hz1 Hz2].
    apply Leibniz.eqb_spec in Hz1, Hz2. subst x h.
    repeat split; auto.
  - destruct (h <? x)%float eqn:Hlt.
    + repeat split; auto using ltb_leb, leb_refl.
    + repeat split; auto using not_ltb_leb, leb_refl.
Qed.

Lemma min_step_spec (h x : number) :
  is_nan h = false -> is_nan x = false ->
  is_nan (min_step h x) = false /\
  (min_step h x = h \/ min_step h x = x) /\
  (min_step h x <=? h)%float = true /\
  (min_step h x <=? x)%float = true.
Proof.
  intros Hh Hx. unfold min_step. rewrite Hh, Hx.
  destruct (is_neg_zero x && is_pos_zero h) eqn:Hz.
  - apply andb_true_iff in Hz. destruct Hz as [Hz1 Hz2].
    apply Leibniz.eqb_spec in Hz1, Hz2. subst x h.
    repeat split; auto.
  - destruct (x <? h)%float eqn:Hlt.
    + repeat split; auto using ltb_leb, leb_refl.
    + repeat split; auto using not_ltb_leb, leb_refl.
Qed.

Lemma fold_max_spec (l : list number) : forall h,
  is_nan h = false -> all_numbers l ->
  let m := fold_left max_step l h in
  is_nan m = false /\ (m = h \/ In m l) /\
  (h <=? m)%float = true /\ forall x, In x l -> (x <=? m)%float = true.
Proof.
  induction l as [|x l IH]; intros h Hh Hl; cbn [fold_left].
  - repeat split; auto using leb_refl; intros x [].
  - inversion Hl as [|? ? Hx Hl']; subst.
    destruct (max_step_spec h x Hh Hx) as (Hn & Hsel & Hhm & Hxm).
    destruct (IH (max_step h x) Hn Hl') as (Hn' & Hsel' & Hle & Hall).
    repeat split.
    + exact Hn'.
    + destruct Hsel' as [E|Hin]; [|right; now right].
      rewrite E. destruct Hsel as [E'|E']; rewrite E'; [now left|right; now left].
    + now apply (leb_trans h (max_step h x)).
    + intros y [<-|Hy]; [|now apply Hall].
      now apply (leb_trans x (max_step h x)).
Qed.

Lemma fold_min_spec (l : list number) : forall h,
  is_nan h = false -> all_numbers l ->
  let m := fold_left min_step l h in
  is_nan m = false /\ (m = h \/ In m l) /\
  (m <=? h)%float = true /\ forall x, In x l -> (m <=? x)%float = true.
Proof.
  induction l as [|x l IH]; intros h Hh Hl; cbn [fold_left].
  - repeat split; auto using leb_refl; intros x [].
  - inversion Hl as [|? ? Hx Hl']; subst.
    destruct (min_step_spec h x Hh Hx) as (Hn & Hsel & Hhm & Hxm).
    destruct (IH (min_step h x) Hn Hl') as (Hn' & Hsel' & Hle & Hall).
    repeat split.
    + exact Hn'.
    + destruct Hsel' as [E|Hin]; [|right; now right].
      rewrite E. destruct Hsel as [E'|E']; rewrite E'; [now left|right; now left].
    + now apply (leb_trans _ (min_step h x)).
    + intros y [<-|Hy]; [|now apply Hall].
      now apply (leb_trans _ (min_step h x)).
Qed.

Lemma Math_max_spec (l : list number) :
  l <> [] -> all_numbers l ->
  is_nan (Math_max l) = false /\ is_maximum (Math_max l) l.
Proof.
  intros Hne Hl.
  destruct (fold_max_spec l neg_infinity eq_refl Hl) as (Hn & Hsel & _ & Hall).
  fold (Math_max l) in Hn, Hsel, Hall.
  split; [exact Hn|]. split; [|exact Hall].
  destruct Hsel as [E|Hin]; [|exact Hin].
  destruct l as [|x l]; [congruence|].
  assert (Hx : is_nan x = false) by now inversion Hl.
  assert (Hle := Hall x (or_introl eq_refl)).
  rewrite E in Hle. apply (below_neg_infinity x Hx) in Hle.
  rewrite E, <- Hle. now left.
Qed.

Lemma Math_min_spec (l : list number) :
  l <> [] -> all_numbers l ->
  is_nan (Math_min l) = false /\ is_minimum (Math_min l) l.
Proof.
  intros Hne Hl.
  destruct (fold_min_spec l infinity eq_refl Hl) as (Hn & Hsel & _ & Hall).
  fold (Math_min l) in Hn, Hsel, Hall.
  split; [exact Hn|]. split; [|exact Hall].
  destruct Hsel as [E|Hin]; [|exact Hin].
  destruct l as [|x l]; [congruence|].
  assert (Hx : is_nan x = false) by now inversion Hl.
  assert (Hle := Hall x (or_introl eq_refl)).
  rewrite E in Hle. apply (above_infinity x Hx) in Hle.
  rewrite E, <- Hle. now left.
Qed.
End NumberFacts.

(** ** Lists *)

Lemma find_is_first_such {A} (p : A -> bool) (l : list A) (r : A) :
  find p l = Some r -> is_first_such p l r.
Proof.
  induction l as [|x l IH]; cbn [find]; [discriminate|].
  destruct (p x) eqn:Hp.
  - intros [= <-]. exists [], l. repeat split; auto. intros ? [].
  - intros H. destruct (IH H) as (before & after & -> & Hr & Hb).
    exists (x :: before), after. repeat split; auto.
    intros y [<-|Hy]; auto.
Qed.

Lemma find_succeeds {A} (p : A -> bool) (l : list A) (x : A) :
  In x l -> p x = true -> exists r, find p l = Some r.
Proof.
  intros Hin Hp. destruct (find p l) as [r|] eqn:E; [now exists r|].
  rewrite (find_none _ _ E x Hin) in Hp. discriminate.
Qed.

Lemma NoDup_app_disjoint {A} (l1 l2 : list A) (a : A) :
  NoDup (l1 ++ l2) -> In a l1 -> In a l2 -> False.
Proof.
  induction l1 as [|x l1 IH]; cbn [app]; [intros _ []|].
  intros Hnd [->|H1] H2; inversion Hnd as [|? ? Hx Hrest]; subst.
  - apply Hx, in_or_app. now right.
  - now apply IH.
Qed.

(** ** Overall statistics *)

Lemma find_extremum (validResults : list TestResult.t) (m : number) :
  is_nan m = false -> In m (map TestResult.speedMbps validResults) ->
  exists r, find (fun r => strict_eq (TestResult.speedMbps r) m) validResults = Some r.
Proof.
  intros Hn Hin. apply in_map_iff in Hin. destruct Hin as (r & <- & Hr).
  apply (find_succeeds _ _ r Hr). now apply NumberFacts.eqb_refl.
Qed.

(** The statistics are those of the results the filter [!r.error] keeps,
    [validResults]: when there is one (speeds being numbers, not NaN), the
    statistics object holds the arithmetic mean, the maximum and the
    minimum of their speeds and names the first of them, in input order,
    whose speed equals the maximum (the minimum); [displayStatistics]
    prints the same overall figures.  On the speeds 50.0 and 200.0 the
    average is 125.0, the maximum 200.0 with the 200.0 result as best, the
    minimum 50.0 with the 50.0 result as worst. *)
Lemma overall_statistics_of_valid_results :
  (forall results : list TestResult.t,
      let validResults := filter succeeded results in
      validResults <> [] ->
      all_numbers (map TestResult.speedMbps validResults) ->
      exists o : Overall,
        is_overall validResults o /\
        calculate_statistics results = overall_object o /\
        exists byProvider bySize,
          displayStatistics results =
            Normal (Statistics byProvider bySize (averageSpeedMbps o)
                      (TestResult.name (bestServer o)) (maxSpeedMbps o)
                      (TestResult.name (worstServer o)) (minSpeedMbps o))) /\
  calculate_statistics scenario_50_200 =
    [ ("averageSpeed", JNumber 125%float);
      ("maxSpeed", JNumber 200%float);
      ("minSpeed", JNumber 50%float);
      ("bestServer", JString "fast");
      ("worstServer", JString "slow") ].
Proof.
  split; [|reflexivity].
  intros results validResults Hne Hnum.
  set (speeds := map TestResult.speedMbps validResults) in *.
  assert (Hs : speeds <> []).
  { unfold speeds. destruct validResults; [congruence|discriminate]. }
  destruct (NumberFacts.Math_max_spec speeds Hs Hnum) as [Hmaxn Hmax].
  destruct (NumberFacts.Math_min_spec speeds Hs Hnum) as [Hminn Hmin].
  destruct (find_extremum validResults _ Hmaxn (proj1 Hmax)) as [best Hbest].
  destruct (find_extremum validResults _ Hminn (proj1 Hmin)) as [worst Hworst].
  exists (mkOverall (average speeds) (Math_max speeds) (Math_min speeds) best worst).
  assert (Hlen : (0 <? List.length validResults)%nat = true).
  { destruct validResults; [congruence|reflexivity]. }
  split; [|split].
  - repeat split; cbn [averageSpeedMbps maxSpeedMbps minSpeedMbps bestServer worstServer];
      try apply Hmax; try apply Hmin; auto using find_is_first_such.
  - unfold calculate_statistics, overall_object, find_name.
    fold validResults. rewrite Hlen. fold speeds. rewrite Hbest, Hworst. reflexivity.
  - unfold displayStatistics. fold validResults.
    replace (List.length validResults =? 0)%nat with false
      by (destruct validResults; [congruence|reflexivity]).
    fold speeds. rewrite Hbest, Hworst. eauto.
Qed.

(** The scenario of the two speeds meets these conditions. *)
Lemma overall_statistics_scenario :
  exists o : Overall,
    is_overall scenario_50_200 o /\
    calculate_statistics scenario_50_200 = overall_object o /\
    exists byProvider bySize,
      displayStatistics scenario_50_200 =
        Normal (Statistics byProvider bySize (averageSpeedMbps o)
                  (TestResult.name (bestServer o)) (maxSpeedMbps o)
                  (TestResult.name (worstServer o)) (minSpeedMbps o)).
Proof.
  apply (proj1 overall_statistics_of_valid_results scenario_50_200).
  - discriminate.
  - repeat constructor.
Defined.

(** C3.  The statistics are not always those of the error-free results.
    In [half_silent_world] the run over the two targets of [cachefly] has
    one error-free result, at 640 Mbps, and one failed transfer whose error
    message is the empty string.  The filter [!r.error] keeps the failed
    result with its speed 0: the average is 320 and the minimum 0, where
    the error-free results have 640 for both, and the worst server named is
    the one that failed.  [displayStatistics] prints the same figures. *)
Theorem failure_with_empty_message_enters_statistics :
  exists out w',
    run (mkOptions ["cachefly"] None None) half_silent_world = (Normal out, w') /\
    map TestResult.error (results out) = [None; Some ""] /\
    map TestResult.speedMbps (results out) = [640%float; 0%float] /\
    statistics out =
      [ ("averageSpeed", JNumber 320%float);
        ("maxSpeed", JNumber 640%float);
        ("minSpeed", JNumber 0%float);
        ("bestServer", JString "CacheFly 10MB");
        ("worstServer", JString "CacheFly 100MB") ] /\
    exists byProvider bySize,
      displayStatistics (results out) =
        Normal (Statistics byProvider bySize 320%float
                  "CacheFly 10MB" 640%float "CacheFly 100MB" 0%float).
Proof.
  eexists. eexists. split; [vm_compute; reflexivity|].
  split; [reflexivity|]. split; [reflexivity|]. split; [reflexivity|].
  eexists. eexists. vm_compute. reflexivity.
Qed.

(** ** [makeRequest] *)

(** One call of [makeRequest], spelled out. *)
Lemma makeRequest_on_unfold net url agent timeout w :
  makeRequest_on net url agent timeout w =
    let startTime := clock w (ticks w) in
    let w1 := with_ticks w (S (ticks w)) in
    if negb (URL_parses w url) then (Throw (mkError "Invalid URL"), w1)
    else
      match net with
      | [] => (Throw (mkError "Timeout"), w1)
      | answer :: net' =>
          let w2 := with_network w1 net' in
          match answer (mkRequest url agent timeout) with
          | RequestError message => (Throw (mkError message), w2)
          | RequestTimeout => (Throw (mkError "Timeout"), w2)
          | Response statusCode location body =>
              handleResponse (fun target => makeRequest_on net' target agent timeout)
                startTime statusCode location body w2
          end
      end.
Proof.
  destruct net as [|answer net']; cbn [makeRequest_on]; unfold bind, performance_now, throw;
    cbn [URL_parses with_ticks]; destruct (URL_parses w url); reflexivity.
Qed.

Lemma redirect_status_iff statusCode :
  redirect_status statusCode = true <-> In statusCode [301; 302; 307; 308].
Proof.
  unfold redirect_status. rewrite existsb_exists. split.
  - intros (x & Hin & E). apply Z.eqb_eq in E. now subst.
  - intros H. exists statusCode. split; [exact H|apply Z.eqb_refl].
Qed.

Lemma truthy_some (s : string) : JSString.truthy (Some s) = true <-> s <> "".
Proof.
  cbn [JSString.truthy]. rewrite negb_true_iff. split.
  - intros H ->. discriminate.
  - intros H. now apply String.eqb_neq.
Qed.

(** What a successful transfer resolves with. *)
Lemma on_end_result startTime state w :
  on_end startTime state w =
    (Normal
       (let duration := ((clock w (ticks w) - startTime) / 1000)%float in
        FetchResult.make (fst state) duration
          (number_of_Z (fst state) * 8 / duration / 1000000)%float
          (number_of_Z (fst state) / duration / 1048576)%float),
     with_ticks w (S (ticks w))).
Proof. reflexivity. Qed.

(** The ['data'] handler counts the bytes and keeps every chunk. *)
Lemma on_data_fold chunks : forall totalBytes kept,
  fold_left on_data chunks (totalBytes, kept) =
    (totalBytes + total_length chunks, (kept ++ chunks)%list).
Proof.
  unfold total_length.
  induction chunks as [|c chunks IH]; intros totalBytes kept; cbn [fold_left].
  - cbn. now rewrite Z.add_0_r, app_nil_r.
  - unfold on_data at 2. cbn [fst snd]. rewrite IH. f_equal.
    + cbn [map]. change (list_sum (?x :: ?l)) with (x + list_sum l)%nat. lia.
    + now rewrite <- app_assoc.
Qed.

Lemma receive_derived startTime statusCode body w r w' :
  receive startTime statusCode body w = (Normal r, w') -> derived_speeds r.
Proof.
  unfold receive. destruct (negb (statusCode =? 200) && negb (statusCode =? 204)).
  - discriminate.
  - destruct body; try discriminate.
    rewrite on_end_result. intros [= <- _]. split; reflexivity.
Qed.

Lemma makeRequest_on_derived net : forall url agent timeout w r w',
  makeRequest_on net url agent timeout w = (Normal r, w') -> derived_speeds r.
Proof.
  induction net as [|answer net IH]; intros url agent timeout w r w';
    rewrite makeRequest_on_unfold; cbv zeta;
    destruct (negb (URL_parses w url)); try discriminate.
  destruct (answer _) as [|  |statusCode location body]; try discriminate.
  unfold handleResponse.
  destruct location as [target|]; [|apply receive_derived].
  destruct (redirect_status statusCode && JSString.truthy (Some target));
    [|apply receive_derived].
  unfold redirected. destruct (negb (URL_parses _ target)); [apply IH|].
  destruct body; try discriminate. apply IH.
Qed.

(** C4.  Whatever [makeRequest] resolves with, its two speeds are computed
    from the bytes and the duration of that same result:
    [speedMbps = bytes * 8 / duration / 1000000] and
    [speedMBps = bytes / duration / 1048576]. *)
Theorem speeds_derived_from_bytes_and_duration url agent timeout w r w' :
  makeRequest url agent timeout w = (Normal r, w') ->
  FetchResult.speedMbps r =
    (number_of_Z (FetchResult.bytes r) * 8 / FetchResult.duration r / 1000000)%float /\
  FetchResult.speedMBps r =
    (number_of_Z (FetchResult.bytes r) / FetchResult.duration r / 1048576)%float.
Proof. unfold makeRequest. apply makeRequest_on_derived. Qed.

Lemma speeds_derived_example :
  exists r w',
    makeRequest "http://b.test/" None 30000 (site_world Byte.x00 1) = (Normal r, w') /\
    FetchResult.bytes r = 1250 /\
    FetchResult.duration r = 1%float /\
    FetchResult.speedMbps r = (number_of_Z 1250 * 8 / 1 / 1000000)%float /\
    FetchResult.speedMBps r = (number_of_Z 1250 / 1 / 1048576)%float.
Proof.
  eexists. eexists. split; [reflexivity|].
  split; [reflexivity|]. split; [reflexivity|].
  exact (speeds_derived_from_bytes_and_duration
           "http://b.test/" None 30000 (site_world Byte.x00 1) _ _ eq_refl).
Defined.

(** ** Redirects *)

(** What a redirecting answer makes of a fetch. *)
Lemma makeRequest_redirected A B agent timeout w answer rest statusCode body :
  network w = answer :: rest ->
  URL_parses w A = true ->
  answer (mkRequest A agent timeout) = Response statusCode (Some B) body ->
  In statusCode [301; 302; 307; 308] ->
  B <> "" ->
  makeRequest A agent timeout w =
    redirected (fun target => makeRequest target agent timeout) B body (after_request w).
Proof.
  intros Hnet Hparse Hans Hstatus HB.
  unfold makeRequest, after_request. rewrite Hnet. cbn [tl network with_network].
  rewrite makeRequest_on_unfold. cbv zeta. rewrite Hparse, Hans. cbn [negb].
  unfold handleResponse.
  apply redirect_status_iff in Hstatus. apply truthy_some in HB.
  rewrite Hstatus, HB. reflexivity.
Qed.

(** A redirect the redirecting request does not disturb hands the fetch
    over. *)
Lemma makeRequest_redirect A B agent timeout w answer rest statusCode chunks :
  network w = answer :: rest ->
  URL_parses w A = true ->
  answer (mkRequest A agent timeout) = Response statusCode (Some B) (BodyEnd chunks) ->
  In statusCode [301; 302; 307; 308] ->
  B <> "" ->
  makeRequest A agent timeout w = makeRequest B agent timeout (after_request w).
Proof.
  intros Hnet Hparse Hans Hstatus HB.
  rewrite (makeRequest_redirected A B agent timeout w answer rest statusCode _
             Hnet Hparse Hans Hstatus HB).
  unfold redirected. now destruct (negb (URL_parses (after_request w) B)).
Qed.

(** The same for a redirect to a URL that does not parse: the followed
    fetch rejects before anything else can happen. *)
Lemma makeRequest_redirect_unparsable A B agent timeout w answer rest statusCode body :
  network w = answer :: rest ->
  URL_parses w A = true ->
  answer (mkRequest A agent timeout) = Response statusCode (Some B) body ->
  In statusCode [301; 302; 307; 308] ->
  B <> "" ->
  URL_parses w B = false ->
  makeRequest A agent timeout w = makeRequest B agent timeout (after_request w).
Proof.
  intros Hnet Hparse Hans Hstatus HB HparseB.
  rewrite (makeRequest_redirected A B agent timeout w answer rest statusCode _
             Hnet Hparse Hans Hstatus HB).
  unfold redirected.
  replace (URL_parses (after_request w) B) with false by (symmetry; exact HparseB).
  reflexivity.
Qed.

Lemma makeRequest_follows agent timeout B hops : forall A w rest,
  network w = (hops ++ rest)%list ->
  undisturbed_chain (URL_parses w) agent timeout A hops B ->
  makeRequest A agent timeout w =
    makeRequest B agent timeout (after_requests (List.length hops) w).
Proof.
  induction hops as [|answer hops IH]; intros A w rest Hnet Hchain.
  - cbn in Hchain. subst. reflexivity.
  - destruct Hchain as (Hparse & statusCode & target & chunks & Hans & Hstatus & Htarget & Hchain).
    rewrite (makeRequest_redirect A target agent timeout w answer (hops ++ rest)
               statusCode chunks Hnet Hparse Hans Hstatus Htarget).
    cbn [List.length after_requests].
    apply (IH target (after_request w) rest).
    + unfold after_request. rewrite Hnet. reflexivity.
    + exact Hchain.
Qed.

Lemma after_requests_world n : forall w,
  clock (after_requests n w) = clock w /\
  ticks (after_requests n w) = (ticks w + n)%nat /\
  network (after_requests n w) = skipn n (network w) /\
  URL_parses (after_requests n w) = URL_parses w /\
  socks_proxy_agent (after_requests n w) = socks_proxy_agent w.
Proof.
  induction n as [|n IH]; intros w; cbn [after_requests].
  - repeat split; auto.
  - destruct (IH (after_request w)) as (Hc & Ht & Hn & Hu & Hs).
    rewrite Hc, Ht, Hn, Hu, Hs. unfold after_request; cbn.
    repeat split; try lia.
    destruct (network w); [now destruct n|reflexivity].
Qed.

Lemma after_requests_intervals n : forall w,
  intervals (after_requests n w) = intervals w.
Proof.
  induction n as [|n IH]; intros w; cbn [after_requests]; [reflexivity|].
  now rewrite IH.
Qed.

(** C7.  A fetch of [A] that is redirected to [B] does not always have
    the outcome of a fetch of [B].  [slow_redirect_world] redirects
    [http://old.test/] to [http://new.test/], whose transfer lasts 40 s:
    the answers are a redirect chain from the one to the other, and the
    fetch of [http://new.test/] made once the redirect has been received
    resolves, with 78125 bytes in 40 s; but the fetch of
    [http://old.test/] rejects with [Timeout], because the timeout of the
    first request, 30000 ms, is still armed and fires before. *)
Theorem redirect_rejected_by_timeout_of_redirecting_request :
  let w := slow_redirect_world in
  redirect_chain (URL_parses w) None 30000
    "http://old.test/" (firstn 1 (network w)) "http://new.test/" /\
  fst (makeRequest "http://old.test/" None 30000 w) = Throw (mkError "Timeout") /\
  exists r w',
    makeRequest "http://new.test/" None 30000 (after_requests 1 w) = (Normal r, w') /\
    FetchResult.bytes r = 78125 /\
    FetchResult.duration r = 40%float.
Proof.
  cbv zeta. split; [|split].
  - split; [reflexivity|].
    exists 302, "http://new.test/", (BodyTimeout []).
    repeat split; [cbn; tauto | discriminate].
  - reflexivity.
  - eexists. eexists. split; [reflexivity|]. split; reflexivity.
Qed.

(** ** Bytes are counted, their content is not looked at *)

Lemma total_length_alike c1 c2 :
  map (@List.length Byte.byte) c1 = map (@List.length Byte.byte) c2 ->
  total_length c1 = total_length c2.
Proof. unfold total_length. now intros ->. Qed.

Lemma world_alike_tick w1 w2 :
  world_alike w1 w2 ->
  world_alike (with_ticks w1 (S (ticks w1))) (with_ticks w2 (S (ticks w2))).
Proof.
  intros (Hc & Ht & Hn & Hu & Hs). unfold world_alike; cbn. rewrite Ht. auto.
Qed.

Lemma world_alike_network w1 w2 n1 n2 :
  world_alike w1 w2 -> network_alike n1 n2 ->
  world_alike (with_network w1 n1) (with_network w2 n2).
Proof.
  intros (Hc & Ht & Hn & Hu & Hs) H. unfold world_alike; cbn. auto.
Qed.

Lemma receive_alike startTime statusCode b1 b2 w1 w2 :
  body_alike b1 b2 -> world_alike w1 w2 ->
  fst (receive startTime statusCode b1 w1) = fst (receive startTime statusCode b2 w2) /\
  world_alike (snd (receive startTime statusCode b1 w1))
              (snd (receive startTime statusCode b2 w2)).
Proof.
  intros Hb Hw. unfold receive.
  destruct (negb (statusCode =? 200) && negb (statusCode =? 204)).
  - split; [reflexivity|exact Hw].
  - destruct Hb as [c1 c2 H|c1 c2 message H|c1 c2 H]; try (split; [reflexivity|exact Hw]).
    rewrite !on_end_result, !on_data_fold. cbn [fst snd].
    rewrite (total_length_alike c1 c2 H).
    split; [|now apply world_alike_tick].
    destruct Hw as (Hc & Ht & Hrest). now rewrite Hc, Ht.
Qed.

Lemma makeRequest_on_alike net1 net2 :
  network_alike net1 net2 ->
  forall url agent timeout w1 w2,
    world_alike w1 w2 ->
    fst (makeRequest_on net1 url agent timeout w1) =
      fst (makeRequest_on net2 url agent timeout w2) /\
    world_alike (snd (makeRequest_on net1 url agent timeout w1))
                (snd (makeRequest_on net2 url agent timeout w2)).
Proof.
  induction 1 as [|a1 a2 net1 net2 Ha Hnet IH]; intros url agent timeout w1 w2 Hw;
    rewrite !makeRequest_on_unfold; cbv zeta;
    assert (Hw1 := world_alike_tick w1 w2 Hw);
    destruct Hw as (Hc & Ht & Hn & Hu & Hs); rewrite <- (Hu url);
    destruct (negb (URL_parses w1 url)); try (split; [reflexivity|exact Hw1]).
  assert (Hw2 := world_alike_network _ _ net1 net2 Hw1 Hnet).
  destruct (Ha (mkRequest url agent timeout)) as [message| |statusCode location b1 b2 Hb];
    try (split; [reflexivity|exact Hw2]).
  replace (clock w1 (ticks w1)) with (clock w2 (ticks w2)) by (now rewrite Hc, Ht).
  unfold handleResponse. destruct location as [target|].
  - destruct (redirect_status statusCode && JSString.truthy (Some target)).
    + unfold redirected. cbn [URL_parses with_network with_ticks]. rewrite <- (Hu target).
      destruct (negb (URL_parses w1 target)); [now apply IH|].
      destruct Hb as [c1 c2 H|c1 c2 message H|c1 c2 H];
        [now apply IH | |];
        (split; [reflexivity|]);
        apply world_alike_network;
          try apply (world_alike_tick _ _ Hw2);
          cbn [network with_network tl];
          destruct Hnet; cbn [tl]; auto; constructor.
    + now apply receive_alike.
  - now apply receive_alike.
Qed.

(** A successful fetch has followed redirects to a final answer whose body
    ended normally; it reports the bytes of that body. *)
Lemma makeRequest_on_success net : forall A agent timeout w r w',
  makeRequest_on net A agent timeout w = (Normal r, w') ->
  exists hops final rest B statusCode location chunks,
    net = (hops ++ final :: rest)%list /\
    redirect_chain (URL_parses w) agent timeout A hops B /\
    final (mkRequest B agent timeout) = Response statusCode location (BodyEnd chunks) /\
    FetchResult.bytes r = total_length chunks.
Proof.
  induction net as [|answer net IH]; intros A agent timeout w r w';
    rewrite makeRequest_on_unfold; cbv zeta;
    destruct (URL_parses w A) eqn:Hparse; cbn [negb]; try discriminate.
  destruct (answer (mkRequest A agent timeout)) as [| |statusCode location body] eqn:Hans;
    try discriminate.
  assert (Hdirect : receive (clock w (ticks w)) statusCode body
                      (with_network (with_ticks w (S (ticks w))) net) = (Normal r, w') ->
                    exists chunks, body = BodyEnd chunks /\
                                   FetchResult.bytes r = total_length chunks).
  { unfold receive. destruct (negb (statusCode =? 200) && negb (statusCode =? 204));
      [discriminate|]. destruct body as [chunks| |]; try discriminate.
    rewrite on_end_result, on_data_fold. intros [= <- _]. now exists chunks. }
  unfold handleResponse. destruct location as [target|].
  - destruct (redirect_status statusCode && JSString.truthy (Some target)) eqn:Hredirect.
    + intros H.
      assert (Hfollow : makeRequest_on net target agent timeout
                          (with_network (with_ticks w (S (ticks w))) net) = (Normal r, w')).
      { revert H. unfold redirected. destruct (negb (URL_parses _ target)); [auto|].
        destruct body; auto; discriminate. }
      clear H. apply IH in Hfollow. rename Hfollow into H.
      destruct H as (hops & final & rest & B & s & l & chunks & -> & Hchain & Hfinal & Hbytes).
      exists (answer :: hops), final, rest, B, s, l, chunks.
      repeat split; auto.
      apply andb_true_iff in Hredirect. destruct Hredirect as [Hs Ht].
      exists statusCode, target, body. repeat split; auto.
      * now apply redirect_status_iff.
      * now apply truthy_some.
    + intros H. destruct (Hdirect H) as (chunks & -> & Hbytes).
      exists [], answer, net, A, statusCode, (Some target), chunks. now repeat split.
  - intros H. destruct (Hdirect H) as (chunks & -> & Hbytes).
    exists [], answer, net, A, statusCode, None, chunks. now repeat split.
Qed.

(** C9.  A successful fetch reports as [bytes] the total length of the
    chunks of the response it read (the final answer, after any redirects),
    and the content of chunks has no influence: in two worlds that differ
    only in the content of the chunks received, chunk lengths being equal,
    [makeRequest] has the same outcome.  (The chunks are also pushed on a
    local array that nothing reads.) *)
Theorem bytes_counted_content_ignored :
  (forall A agent timeout w r w',
      makeRequest A agent timeout w = (Normal r, w') ->
      exists hops final rest B statusCode location chunks,
        network w = (hops ++ final :: rest)%list /\
        redirect_chain (URL_parses w) agent timeout A hops B /\
        final (mkRequest B agent timeout) = Response statusCode location (BodyEnd chunks) /\
        FetchResult.bytes r = total_length chunks) /\
  (forall url agent timeout w1 w2,
      world_alike w1 w2 ->
      fst (makeRequest url agent timeout w1) = fst (makeRequest url agent timeout w2)).
Proof.
  split.
  - intros A agent timeout w r w'. apply makeRequest_on_success.
  - intros url agent timeout w1 w2 Hw. unfold makeRequest.
    apply makeRequest_on_alike; [apply Hw|exact Hw].
Qed.

Lemma site_alike b1 b2 req : exchange_alike (site b1 req) (site b2 req).
Proof.
  unfold site, payload.
  repeat match goal with |- context [if ?c then _ else _] => destruct c end;
    repeat constructor; cbn [map]; now rewrite !repeat_length.
Qed.

Lemma content_ignored_example :
  fst (makeRequest "http://a.test/" None 30000 (site_world Byte.x00 2)) =
    fst (makeRequest "http://a.test/" None 30000 (site_world Byte.xff 2)) /\
  exists r w',
    makeRequest "http://a.test/" None 30000 (site_world Byte.xff 2) = (Normal r, w') /\
    FetchResult.bytes r = 1250.
Proof.
  split.
  - apply (proj2 bytes_counted_content_ignored).
    unfold world_alike, site_world; cbn.
    repeat split; auto. repeat constructor; apply site_alike.
  - eexists. eexists. split; reflexivity.
Defined.

(** ** [pingTest] *)

Lemma pingTest_unfold url agent w :
  pingTest url agent w =
    match makeRequest url agent 5000 (tick w) with
    | (Normal _, w') =>
        (Normal (Some (clock w' (ticks w') - clock w (ticks w))%float), tick w')
    | (Throw _, w') => (Normal None, w')
    end.
Proof.
  unfold pingTest, bind, try_catch, performance_now, ret, tick.
  destruct (makeRequest url agent 5000 _) as [[r|err] w']; reflexivity.
Qed.

Lemma pingTest_normal url agent w :
  exists latency w', pingTest url agent w = (Normal latency, w').
Proof.
  rewrite pingTest_unfold.
  destruct (makeRequest url agent 5000 (tick w)) as [[r|err] w']; eauto.
Qed.

(** C6.  For every URL and agent, in every world, [pingTest] returns: a
    latency when the fetch (timeout 5000) succeeds, [null] when it fails in
    any way (invalid URL, transport error such as a refused connection,
    timeout, bad status, error while reading); it never throws. *)
Theorem pingTest_never_raises url agent w :
  (exists latency w', pingTest url agent w = (Normal latency, w')) /\
  (forall err w',
      makeRequest url agent 5000 (tick w) = (Throw err, w') ->
      pingTest url agent w = (Normal None, w')) /\
  (forall r w',
      makeRequest url agent 5000 (tick w) = (Normal r, w') ->
      pingTest url agent w =
        (Normal (Some (clock w' (ticks w') - clock w (ticks w))%float), tick w')).
Proof.
  split; [apply pingTest_normal|].
  split; intros x w' H; rewrite pingTest_unfold, H; reflexivity.
Qed.

Lemma pingTest_connection_refused :
  exists w',
    makeRequest "http://refused.test/" None 5000 (tick (site_world Byte.x00 1)) =
      (Throw (mkError "connect ECONNREFUSED 127.0.0.1:80"), w') /\
    pingTest "http://refused.test/" None (site_world Byte.x00 1) = (Normal None, w').
Proof.
  eexists. split; [reflexivity|].
  apply (proj1 (proj2 (pingTest_never_raises "http://refused.test/" None
                         (site_world Byte.x00 1)))
           (mkError "connect ECONNREFUSED 127.0.0.1:80")).
  reflexivity.
Defined.

(** ** [testServer] *)

(** One call of [testServer], spelled out. *)
Lemma testServer_unfold server agent showProgress w :
  testServer server agent showProgress w =
    let testResult :=
      TestResult.make (Server.name server) (Server.url server) (Server.size server)
        None zero zero zero None in
    match pingTest (Server.url server) agent w with
    | (Normal pingTime, w1) =>
        let testResult := TestResult.set_ping testResult pingTime in
        match makeRequest (Server.url server) agent 30000 (progress_started showProgress w1) with
        | (Normal result, w2) =>
            (Normal (TestResult.set_speed testResult result),
             progress_stopped showProgress w2)
        | (Throw err, w2) =>
            (Normal (TestResult.set_error testResult (Some (message err))), w2)
        end
    | (Throw err, w1) =>
        (Normal (TestResult.set_error testResult (Some (message err))), w1)
    end.
Proof.
  unfold testServer. cbv beta zeta. unfold try_catch at 1. unfold bind at 1.
  destruct (pingTest (Server.url server) agent w) as [[pingTime|err] w1]; [|reflexivity].
  unfold try_catch, bind, ret, performance_now, setInterval, clearInterval,
    progress_started, progress_stopped, tick.
  destruct showProgress; cbn [intervals with_ticks];
    match goal with |- context [makeRequest ?u ?a ?t ?x] =>
      destruct (makeRequest u a t x) as [[result|err] w2] end; reflexivity.
Qed.

Lemma testServer_tested server agent showProgress w :
  exists r w', testServer server agent showProgress w = (Normal r, w') /\ tested server r.
Proof.
  rewrite testServer_unfold. cbv zeta.
  destruct (pingTest_normal (Server.url server) agent w) as (latency & w1 & ->).
  destruct (makeRequest (Server.url server) agent 30000 _) as [[result|err] w2];
    eexists; eexists; (split; [reflexivity|]);
    destruct server; split; try reflexivity; cbn; try congruence.
  intros _. repeat split.
Qed.

Lemma for_each_tested agent showProgress tests : forall w,
  exists results w',
    for_each (fun test => testServer test agent showProgress) tests w = (Normal results, w') /\
    Forall2 tested tests results.
Proof.
  induction tests as [|test tests IH]; intros w; cbn [for_each].
  - exists [], w. split; [reflexivity|constructor].
  - unfold bind.
    destruct (testServer_tested test agent showProgress w) as (r & w1 & -> & Hr).
    destruct (IH w1) as (results & w2 & -> & Hrs).
    exists (r :: results), w2. split; [reflexivity|now constructor].
Qed.

(** ** [run] *)

Lemma createAgent_normal proxy isHttps w :
  exists agent, createAgent proxy isHttps w = (Normal agent, w).
Proof.
  unfold createAgent, ret. destruct proxy as [p|]; [|eauto].
  destruct (JSString.truthy (Some p)); [|eauto].
  destruct (socks_proxy_agent w p); eauto.
Qed.

Lemma run_unfold options w :
  match build_tests TEST_SERVERS (servers options) (sizes options) [] with
  | Normal tests =>
      exists results w',
        run options w = (Normal (mkRunResult results (calculate_statistics results)), w') /\
        Forall2 tested tests results
  | Throw err => run options w = (Throw err, w)
  end.
Proof.
  unfold run, bind, lift.
  destruct (createAgent_normal (proxy options) true w) as (agent & ->).
  destruct (build_tests _ _ _ _) as [tests|err]; [|reflexivity].
  destruct (for_each_tested agent false tests w) as (results & w' & -> & H).
  exists results, w'. split; [reflexivity|exact H].
Qed.

Lemma run_results options w out w' :
  run options w = (Normal out, w') ->
  exists tests,
    build_tests TEST_SERVERS (servers options) (sizes options) [] = Normal tests /\
    Forall2 tested tests (results out) /\
    statistics out = calculate_statistics (results out).
Proof.
  intros H. assert (U := run_unfold options w).
  destruct (build_tests _ _ _ _) as [tests|err].
  - destruct U as (rs & w1 & E & HF). rewrite E in H. injection H as <- <-.
    exists tests. repeat split; auto.
  - rewrite U in H. discriminate.
Qed.

(** C5.  A result of [testServer], and so every result [run] returns, that
    has its error field set has [speedMbps], [speedMBps] and [duration] at
    their zero defaults. *)
Theorem error_leaves_speed_zero :
  (forall server agent showProgress w r w',
      testServer server agent showProgress w = (Normal r, w') ->
      TestResult.error r <> None ->
      TestResult.speedMbps r = 0%float /\ TestResult.speedMBps r = 0%float /\
      TestResult.duration r = 0%float) /\
  (forall options w out w',
      run options w = (Normal out, w') ->
      forall r, In r (results out) ->
        TestResult.error r <> None ->
        TestResult.speedMbps r = 0%float /\ TestResult.speedMBps r = 0%float /\
        TestResult.duration r = 0%float).
Proof.
  split.
  - intros server agent showProgress w r w' H.
    destruct (testServer_tested server agent showProgress w) as (r0 & w0 & E & Ht).
    rewrite E in H. injection H as <- <-. apply Ht.
  - intros options w out w' H r Hin.
    destruct (run_results options w out w' H) as (tests & _ & HF & _).
    clear H. induction HF as [|t r0 ts rs Hr HF IH]; [destruct Hin|].
    destruct Hin as [<-|Hin]; [apply Hr|now apply IH].
Qed.

Lemma error_example :
  exists r w',
    testServer gone None false (site_world Byte.x00 2) = (Normal r, w') /\
    TestResult.error r = Some "HTTP 404" /\
    TestResult.speedMbps r = 0%float /\ TestResult.speedMBps r = 0%float /\
    TestResult.duration r = 0%float.
Proof.
  eexists. eexists. split; [reflexivity|]. split; [reflexivity|].
  apply (proj1 error_leaves_speed_zero gone None false (site_world Byte.x00 2) _ _ eq_refl).
  discriminate.
Defined.

(** ** Target selection *)

Section CatalogFacts.

Variable catalog : Catalog.
(** No provider key occurs twice, and no target occurs twice. *)
Hypothesis keys_distinct : NoDup (Object_keys catalog).
Hypothesis targets_distinct : NoDup (flat_map snd catalog).

Lemma own_property_In key l : own_property catalog key = Some l -> In (key, l) catalog.
Proof.
  clear keys_distinct targets_distinct.
  induction catalog as [|[k v] rest IH]; cbn [own_property]; [discriminate|].
  destruct (String.eqb_spec k key) as [->|Hne].
  - intros [= ->]. now left.
  - intros H. right. now apply IH.
Qed.

Lemma In_own_property key l : In (key, l) catalog -> own_property catalog key = Some l.
Proof.
  clear targets_distinct. revert keys_distinct. unfold Object_keys.
  induction catalog as [|[k v] rest IH]; cbn [own_property map fst]; [intros _ []|].
  intros Hnd [[= -> ->]|Hin].
  - now rewrite String.eqb_refl.
  - inversion Hnd as [|? ? Hk Hrest]; subst.
    destruct (String.eqb_spec k key) as [->|Hne]; [|now apply IH].
    exfalso. apply Hk. apply in_map_iff. now exists (key, l).
Qed.

Lemma provider_unique k1 l1 k2 l2 t :
  In (k1, l1) catalog -> In (k2, l2) catalog -> In t l1 -> In t l2 -> k1 = k2.
Proof.
  clear keys_distinct. revert targets_distinct.
  induction catalog as [|[k v] rest IH]; cbn [flat_map snd]; [intros _ []|].
  intros Hnd H1 H2 Ht1 Ht2.
  assert (Hrest := NoDup_app_remove_l _ _ Hnd).
  assert (Hin : forall k' l', In (k', l') rest -> In t l' -> In t (flat_map snd rest)).
  { intros k' l' Hk Hl. apply in_flat_map. now exists (k', l'). }
  destruct H1 as [[= -> ->]|H1], H2 as [[= -> ->]|H2].
  - reflexivity.
  - exfalso. apply (NoDup_app_disjoint _ _ t Hnd Ht1). eauto.
  - exfalso. apply (NoDup_app_disjoint _ _ t Hnd Ht2). eauto.
  - exact (IH Hrest H1 H2 Ht1 Ht2).
Qed.

Lemma targets_of_provider_distinct key l : In (key, l) catalog -> NoDup l.
Proof.
  clear keys_distinct. revert targets_distinct.
  induction catalog as [|[k v] rest IH]; cbn [flat_map snd]; [intros _ []|].
  intros Hnd [[= -> ->]|Hin].
  - now apply NoDup_app_remove_r in Hnd.
  - apply NoDup_app_remove_l in Hnd. now apply IH.
Qed.

Lemma In_selected servers sizes t :
  In t (selected_targets catalog servers sizes) <->
  exists key l, In key servers /\ In (key, l) catalog /\ In t l /\
                size_selected sizes t = true.
Proof.
  unfold selected_targets, matching_targets. rewrite in_flat_map. split.
  - intros (key & Hkey & Ht).
    destruct (own_property catalog key) as [l|] eqn:E; [|destruct Ht].
    apply filter_In in Ht. exists key, l.
    repeat split; auto using own_property_In; apply Ht.
  - intros (key & l & Hkey & Hin & Ht & Hs). exists key. split; [exact Hkey|].
    rewrite (In_own_property key l Hin). now apply filter_In.
Qed.

Lemma In_catalog_filter servers sizes t :
  In t (catalog_filter catalog servers sizes) <->
  exists key l, In key servers /\ In (key, l) catalog /\ In t l /\
                size_selected sizes t = true.
Proof.
  unfold catalog_filter. rewrite in_flat_map. split.
  - intros ([key l] & Hin & Ht). cbn [fst snd] in Ht.
    destruct (existsb (String.eqb key) servers) eqn:E; [|destruct Ht].
    apply existsb_exists in E. destruct E as (k & Hk & Heq).
    apply String.eqb_eq in Heq. subst k.
    apply filter_In in Ht. exists key, l. repeat split; auto; apply Ht.
  - intros (key & l & Hkey & Hin & Ht & Hs). exists (key, l). split; [exact Hin|].
    cbn [fst snd].
    replace (existsb (String.eqb key) servers) with true.
    + now apply filter_In.
    + symmetry. apply existsb_exists. exists key. split; [exact Hkey|apply String.eqb_refl].
Qed.

(** A matching target is selected once for every occurrence of its
    provider key in the request. *)
Lemma count_selected servers sizes key l t :
  In (key, l) catalog -> In t l -> size_selected sizes t = true ->
  count_occ Server.eq_dec (selected_targets catalog servers sizes) t =
    count_occ string_dec servers key.
Proof.
  intros Hin Ht Hs. unfold selected_targets.
  induction servers as [|k servers IH]; [reflexivity|].
  cbn [flat_map count_occ]. rewrite count_occ_app, IH.
  destruct (string_dec k key) as [->|Hne].
  - unfold matching_targets. rewrite (In_own_property key l Hin).
    rewrite (proj1 (NoDup_count_occ' Server.eq_dec (filter (size_selected sizes) l))).
    + reflexivity.
    + apply NoDup_filter. now apply (targets_of_provider_distinct key l).
    + now apply filter_In.
  - replace (count_occ Server.eq_dec (matching_targets catalog sizes k) t) with 0%nat;
      [reflexivity|].
    symmetry. apply count_occ_not_In. unfold matching_targets.
    destruct (own_property catalog k) as [l'|] eqn:E; [|intros []].
    intros H. apply filter_In in H. apply Hne.
    apply (provider_unique k l' key l t); auto using own_property_In. apply H.
Qed.

End CatalogFacts.

Lemma build_tests_spec catalog sizes servers : forall tests,
  build_tests catalog servers sizes tests =
    if existsb (inherited_property catalog) servers
    then Throw (mkError "TEST_SERVERS[serverKey] is not iterable")
    else Normal (tests ++ selected_targets catalog servers sizes)%list.
Proof.
  unfold selected_targets.
  induction servers as [|key servers IH]; intros tests; cbn [build_tests flat_map existsb].
  - now rewrite app_nil_r.
  - unfold matching_targets, inherited_property, get_property.
    destruct (own_property catalog key) as [l|]; cbn [orb].
    + rewrite IH. destruct (existsb _ servers); [reflexivity|now rewrite app_assoc].
    + destruct (inherited_key key); cbn [orb]; [reflexivity|apply IH].
Qed.

Lemma no_inherited_property servers :
  Forall (fun key => inherited_key key = false) servers ->
  existsb (inherited_property TEST_SERVERS) servers = false.
Proof.
  induction 1 as [|key servers Hkey _ IH]; [reflexivity|].
  cbn [existsb]. rewrite IH, orb_false_r.
  unfold inherited_property, get_property. rewrite Hkey.
  now destruct (own_property TEST_SERVERS key).
Qed.

Lemma selected_known catalog sizes servers :
  selected_targets catalog servers sizes =
    selected_targets catalog (filter (known_provider catalog) servers) sizes.
Proof.
  unfold selected_targets.
  induction servers as [|key servers IH]; [reflexivity|].
  cbn [flat_map filter]. destruct (known_provider catalog key) eqn:E.
  - cbn [flat_map]. now rewrite IH.
  - rewrite <- IH. unfold matching_targets. unfold known_provider in E.
    destruct (own_property catalog key); [discriminate|reflexivity].
Qed.

Lemma TEST_SERVERS_keys_distinct : NoDup (Object_keys TEST_SERVERS).
Proof. repeat constructor; cbn; intuition discriminate. Qed.

Lemma TEST_SERVERS_targets_distinct : NoDup (flat_map snd TEST_SERVERS).
Proof. repeat constructor; cbn; intuition discriminate. Qed.

Lemma tested_targets tests results :
  Forall2 tested tests results -> map target_of results = tests.
Proof.
  induction 1 as [|t r ts rs Hr _ IH]; [reflexivity|].
  cbn [map]. rewrite IH. f_equal. apply Hr.
Qed.

(** What [run] returns, when it returns: results for the selected targets,
    one for one and in their order. *)
Lemma run_selected options w out w' :
  run options w = (Normal out, w') ->
  map target_of (results out) =
    selected_targets TEST_SERVERS (servers options) (sizes options).
Proof.
  intros H. destruct (run_results options w out w' H) as (tests & Hb & HF & _).
  rewrite (tested_targets tests (results out) HF).
  rewrite build_tests_spec in Hb.
  destruct (existsb _ _); [discriminate|]. now injection Hb as <-.
Qed.

Lemma run_normal options w :
  Forall (fun key => inherited_key key = false) (servers options) ->
  exists out w', run options w = (Normal out, w').
Proof.
  intros Hkeys. assert (U := run_unfold options w).
  rewrite build_tests_spec, (no_inherited_property _ Hkeys) in U.
  destruct U as (rs & w' & E & _). eauto.
Qed.

(** C1, as the code has it.  When no requested key is a property name
    inherited from [Object.prototype], [run] returns one result per
    occurrence of a requested key and per target of that provider that
    passes the size filter, ordered by the request and, within a provider,
    by the catalog.  The targets tested are exactly those of the filter
    over the catalog (requested provider, size absent or listed), so none
    lies outside it; a key that is no provider of the catalog contributes
    nothing and raises no error; and when the requested keys are distinct,
    every target of the filter has exactly one result. *)
Theorem target_selection options w :
  Forall (fun key => inherited_key key = false) (servers options) ->
  exists out w',
    run options w = (Normal out, w') /\
    map target_of (results out) =
      selected_targets TEST_SERVERS (servers options) (sizes options) /\
    (forall t, In t (map target_of (results out)) <->
               In t (catalog_filter TEST_SERVERS (servers options) (sizes options))) /\
    selected_targets TEST_SERVERS (servers options) (sizes options) =
      selected_targets TEST_SERVERS
        (filter (known_provider TEST_SERVERS) (servers options)) (sizes options) /\
    (NoDup (servers options) ->
     forall t, In t (catalog_filter TEST_SERVERS (servers options) (sizes options)) ->
               count_occ Server.eq_dec (map target_of (results out)) t = 1%nat).
Proof.
  intros Hkeys. destruct (run_normal options w Hkeys) as (out & w' & Hrun).
  exists out, w'. rewrite (run_selected options w out w' Hrun).
  split; [exact Hrun|]. split; [reflexivity|]. split; [|split].
  - intros t.
    rewrite (In_selected TEST_SERVERS TEST_SERVERS_keys_distinct), In_catalog_filter.
    reflexivity.
  - apply selected_known.
  - intros Hnd t Ht. apply In_catalog_filter in Ht.
    destruct Ht as (key & l & Hkey & Hin & Ht & Hs).
    rewrite (count_selected TEST_SERVERS TEST_SERVERS_keys_distinct
               TEST_SERVERS_targets_distinct _ _ key l t Hin Ht Hs).
    now apply NoDup_count_occ'.
Qed.

Lemma target_selection_example :
  exists out w',
    run (mkOptions ["cachefly"; "nosuchprovider"; "cloudflare"] (Some [10]) None)
        (site_world Byte.x00 0) = (Normal out, w') /\
    map TestResult.name (results out) = ["CacheFly 10MB"; "Cloudflare 10MB"].
Proof.
  destruct (target_selection
              (mkOptions ["cachefly"; "nosuchprovider"; "cloudflare"] (Some [10]) None)
              (site_world Byte.x00 0)) as (out & w' & Hrun & Htargets & _).
  - repeat constructor.
  - exists out, w'. split; [exact Hrun|].
    change (map TestResult.name (results out))
      with (map (fun r => Server.name (target_of r)) (results out)).
    rewrite <- (map_map target_of Server.name), Htargets. reflexivity.
Defined.

(** C1, as stated, fails: the results follow the order of the request, not
    of the catalog (cachefly before cloudflare, which the catalog lists
    first); a key requested twice has its targets tested twice; and the key
    [constructor], which names no provider, makes [run] throw. *)
Lemma target_selection_as_stated_fails :
  (exists out w',
      run (mkOptions ["cachefly"; "cloudflare"] None None) (site_world Byte.x00 0) =
        (Normal out, w') /\
      map target_of (results out) <>
        catalog_filter TEST_SERVERS ["cachefly"; "cloudflare"] None) /\
  (exists out w',
      run (mkOptions ["cachefly"; "cachefly"] (Some [10]) None) (site_world Byte.x00 0) =
        (Normal out, w') /\
      map TestResult.name (results out) = ["CacheFly 10MB"; "CacheFly 10MB"]) /\
  (exists err w',
      run (mkOptions ["constructor"] None None) (site_world Byte.x00 0) = (Throw err, w')).
Proof.
  split; [|split].
  - eexists. eexists. split; [reflexivity|]. discriminate.
  - eexists. eexists. split; reflexivity.
  - eexists. eexists. reflexivity.
Qed.

(** C10.  The targets of a provider are tested once for every occurrence
    of its key in the requested list: a target of provider [key] that
    passes the size filter has as many results as [key] has occurrences. *)
Theorem repeated_key_repeats_targets options w out w' key l t :
  run options w = (Normal out, w') ->
  In (key, l) TEST_SERVERS -> In t l -> size_selected (sizes options) t = true ->
  count_occ Server.eq_dec (map target_of (results out)) t =
    count_occ string_dec (servers options) key.
Proof.
  intros Hrun Hin Ht Hs. rewrite (run_selected options w out w' Hrun).
  now apply (count_selected TEST_SERVERS TEST_SERVERS_keys_distinct
               TEST_SERVERS_targets_distinct _ _ key l).
Qed.

Lemma repeated_key_example :
  exists out w',
    run (mkOptions ["cachefly"; "cachefly"] None None) (site_world Byte.x00 0) =
      (Normal out, w') /\
    count_occ Server.eq_dec (map target_of (results out)) cachefly_10MB = 2%nat.
Proof.
  eexists. eexists. split; [reflexivity|].
  rewrite (repeated_key_repeats_targets
             (mkOptions ["cachefly"; "cachefly"] None None) (site_world Byte.x00 0) _ _
             "cachefly"
             [ cachefly_10MB;
               Server.make "CacheFly 100MB" "http://cachefly.cachefly.net/100mb.test" 100 ]
             cachefly_10MB eq_refl).
  - reflexivity.
  - cbn. tauto.
  - now left.
  - reflexivity.
Defined.

(** ** The statistics object *)





(** When the filter [!r.error] keeps no result, the statistics block yields
    the empty object, without any average, maximum, minimum, best or worst
    value (hence no NaN and no division at all), [displayStatistics] prints
    its no-data line, and the statistics [run] returns are that empty
    object. *)
Lemma no_data_without_valid_result :
  (forall results,
      filter succeeded results = [] ->
      calculate_statistics results = [] /\
      displayStatistics results = Normal NoSuccessfulTests) /\
  (forall options w out w',
      run options w = (Normal out, w') ->
      filter succeeded (results out) = [] ->
      statistics out = [] /\ forall key value, ~ In (key, value) (statistics out)).
Proof.
  assert (H : forall results, filter succeeded results = [] ->
                              calculate_statistics results = []).
  { intros results E. unfold calculate_statistics. now rewrite E. }
  split.
  - intros results E. split; [now apply H|].
    unfold displayStatistics. now rewrite E.
  - intros options w out w' Hrun E.
    destruct (run_results options w out w' Hrun) as (_ & _ & _ & ->).
    rewrite (H _ E). split; [reflexivity|]. intros key value [].
Qed.

Lemma no_data_example :
  exists out w',
    run (mkOptions ["cachefly"] None None) (site_world Byte.x00 4) = (Normal out, w') /\
    map TestResult.error (results out) =
      [ Some "connect ECONNREFUSED 127.0.0.1:80";
        Some "connect ECONNREFUSED 127.0.0.1:80" ] /\
    statistics out = [].
Proof.
  eexists. eexists. split; [vm_compute; reflexivity|]. split; [reflexivity|].
  eapply (proj2 no_data_without_valid_result
            (mkOptions ["cachefly"] None None) (site_world Byte.x00 4)).
  - vm_compute. reflexivity.
  - reflexivity.
Defined.

(** C8.  A run without any error-free result does not always yield the
    no-data result.  In [silent_failure_world] every connection fails with
    an error whose message is the empty string: both results of the run
    over [cachefly] have their error set, and yet the statistics object
    holds the five overall properties, computed from the zero speeds of the
    failed transfers, and [displayStatistics] prints figures instead of its
    no-data line.  The filter [!r.error] takes these failures for
    successes. *)
Theorem failures_with_empty_message_yield_statistics :
  exists out w',
    run (mkOptions ["cachefly"] None None) (silent_failure_world 4) = (Normal out, w') /\
    map TestResult.error (results out) = [Some ""; Some ""] /\
    statistics out =
      [ ("averageSpeed", JNumber 0%float);
        ("maxSpeed", JNumber 0%float);
        ("minSpeed", JNumber 0%float);
        ("bestServer", JString "CacheFly 10MB");
        ("worstServer", JString "CacheFly 10MB") ] /\
    displayStatistics (results out) <> Normal NoSuccessfulTests.
Proof.
  eexists. eexists. split; [vm_compute; reflexivity|].
  split; [reflexivity|]. split; [reflexivity|].
  vm_compute. discriminate.
Qed.

(** * Further properties of the code *)

(** ** More on [makeRequest] *)

Lemma makeRequest_answered url agent timeout w answer rest :
  network w = answer :: rest ->
  URL_parses w url = true ->
  makeRequest url agent timeout w =
    match answer (mkRequest url agent timeout) with
    | RequestError message => (Throw (mkError message), after_request w)
    | RequestTimeout => (Throw (mkError "Timeout"), after_request w)
    | Response statusCode location body =>
        handleResponse (fun target => makeRequest_on rest target agent timeout)
          (clock w (ticks w)) statusCode location body (after_request w)
    end.
Proof.
  intros Hnet Hparse. unfold makeRequest, after_request.
  rewrite Hnet, makeRequest_on_unfold. cbv zeta. rewrite Hparse. reflexivity.
Qed.

(** X1.  An answer whose status is neither 200 nor 204 and that is not
    followed as a redirect (its status is no redirect status, or its
    [Location] is missing or empty) makes the fetch fail with the message
    [HTTP] and the status; the body is not read. *)
Theorem http_status_rejected url agent timeout w answer rest statusCode location body :
  network w = answer :: rest ->
  URL_parses w url = true ->
  answer (mkRequest url agent timeout) = Response statusCode location body ->
  statusCode <> 200 -> statusCode <> 204 ->
  redirect_status statusCode = false \/ JSString.truthy location = false ->
  makeRequest url agent timeout w =
    (Throw (mkError ("HTTP " ++ JSString.string_of_Z statusCode)), after_request w).
Proof.
  intros Hnet Hparse Hans H200 H204 Hnoredirect.
  rewrite (makeRequest_answered url agent timeout w answer rest Hnet Hparse), Hans.
  assert (Hreceive : receive (clock w (ticks w)) statusCode body (after_request w) =
                     (Throw (mkError ("HTTP " ++ JSString.string_of_Z statusCode)),
                      after_request w)).
  { unfold receive. apply Z.eqb_neq in H200, H204. now rewrite H200, H204. }
  unfold handleResponse. destruct location as [target|]; [|exact Hreceive].
  replace (redirect_status statusCode && JSString.truthy (Some target)) with false;
    [exact Hreceive|].
  symmetry. apply andb_false_iff. exact Hnoredirect.
Qed.

Lemma http_status_example :
  makeRequest "http://gone.test/" None 30000 (site_world Byte.x00 1) =
    (Throw (mkError "HTTP 404"), after_request (site_world Byte.x00 1)) /\
  makeRequest "http://moved.test/" None 30000
    (mkWorld steady_clock 0 [fun _ => Response 302 None (BodyEnd [])]
       (fun _ => true) (fun _ => false) 0) =
    (Throw (mkError "HTTP 302"),
     after_request (mkWorld steady_clock 0 [fun _ => Response 302 None (BodyEnd [])]
                      (fun _ => true) (fun _ => false) 0)).
Proof.
  split.
  - apply (http_status_rejected "http://gone.test/" None 30000 (site_world Byte.x00 1)
             (site Byte.x00) [] 404 None (BodyEnd []));
      try reflexivity; try discriminate. now left.
  - apply (http_status_rejected "http://moved.test/" None 30000 _
             (fun _ => Response 302 None (BodyEnd [])) [] 302 None (BodyEnd []));
      try reflexivity; try discriminate. now right.
Defined.

(** A fetch answered at once with status 200 or 204 and a body that ends. *)
Lemma makeRequest_direct url agent timeout w answer rest statusCode location chunks :
  network w = answer :: rest ->
  URL_parses w url = true ->
  answer (mkRequest url agent timeout) = Response statusCode location (BodyEnd chunks) ->
  statusCode = 200 \/ statusCode = 204 ->
  makeRequest url agent timeout w =
    (Normal
       (let duration := ((clock w (S (ticks w)) - clock w (ticks w)) / 1000)%float in
        FetchResult.make (total_length chunks) duration
          (number_of_Z (total_length chunks) * 8 / duration / 1000000)%float
          (number_of_Z (total_length chunks) / duration / 1048576)%float),
     tick (after_request w)).
Proof.
  intros Hnet Hparse Hans Hstatus.
  rewrite (makeRequest_answered url agent timeout w answer rest Hnet Hparse), Hans.
  assert (Hreceive : forall startTime,
             receive startTime statusCode (BodyEnd chunks) (after_request w) =
             on_end startTime (total_length chunks, chunks) (after_request w)).
  { intros startTime. unfold receive.
    replace (negb (statusCode =? 200) && negb (statusCode =? 204)) with false
      by (destruct Hstatus; subst; reflexivity).
    now rewrite on_data_fold. }
  assert (Hredirect : redirect_status statusCode = false)
    by (destruct Hstatus; subst; reflexivity).
  unfold handleResponse. destruct location as [target|];
    [rewrite Hredirect; cbn [andb]|]; rewrite Hreceive; reflexivity.
Qed.

Lemma after_requests_S n : forall w,
  after_requests (S n) w = after_request (after_requests n w).
Proof.
  induction n as [|n IH]; intros w; [reflexivity|].
  change (after_requests (S (S n)) w) with (after_requests (S n) (after_request w)).
  now rewrite IH.
Qed.

Lemma skipn_hops {A} (hops rest : list A) : skipn (List.length hops) (hops ++ rest) = rest.
Proof. induction hops; [reflexivity|assumption]. Qed.

(** X2.  The duration (and so the speed) of a fetch that followed redirects
    is measured on the last request alone: from the clock reading taken when
    the request to the final URL is made to the reading taken at the end of
    its body.  The time spent on the redirecting requests is not counted.
    This is for redirects during which no redirecting request emits an
    error or runs into its timeout. *)
Theorem duration_excludes_redirects agent timeout A B hops final rest w
    statusCode location chunks :
  network w = (hops ++ final :: rest)%list ->
  undisturbed_chain (URL_parses w) agent timeout A hops B ->
  URL_parses w B = true ->
  final (mkRequest B agent timeout) = Response statusCode location (BodyEnd chunks) ->
  statusCode = 200 \/ statusCode = 204 ->
  exists r w',
    makeRequest A agent timeout w = (Normal r, w') /\
    FetchResult.duration r =
      ((clock w (ticks w + List.length hops + 1) -
        clock w (ticks w + List.length hops)) / 1000)%float /\
    FetchResult.bytes r = total_length chunks /\
    ticks w' = (ticks w + List.length hops + 2)%nat /\
    network w' = rest.
Proof.
  intros Hnet Hchain Hparse Hfinal Hstatus.
  rewrite (makeRequest_follows agent timeout B hops A w (final :: rest) Hnet Hchain).
  destruct (after_requests_world (List.length hops) w) as (Hc & Ht & Hn & Hu & _).
  assert (Hnet' : network (after_requests (List.length hops) w) = final :: rest).
  { rewrite Hn, Hnet. apply skipn_hops. }
  rewrite (makeRequest_direct B agent timeout _ final rest statusCode location chunks
             Hnet' (eq_trans (f_equal (fun p => p B) Hu) Hparse) Hfinal Hstatus).
  eexists. eexists. split; [reflexivity|].
  cbn [FetchResult.duration FetchResult.bytes]. rewrite Hc, Ht.
  repeat split.
  - replace (ticks w + List.length hops + 1)%nat with (S (ticks w + List.length hops))
      by lia. reflexivity.
  - unfold tick, after_request; cbn. lia.
  - unfold tick, after_request; cbn. now rewrite Hnet'.
Qed.

Lemma duration_example :
  exists r w',
    makeRequest "http://a.test/" None 30000 (site_world Byte.x00 2) = (Normal r, w') /\
    FetchResult.duration r = ((steady_clock 2 - steady_clock 1) / 1000)%float /\
    FetchResult.bytes r = 1250 /\
    ticks w' = 3%nat /\
    network w' = [].
Proof.
  apply (duration_excludes_redirects None 30000 "http://a.test/" "http://b.test/"
           [site Byte.x00] (site Byte.x00) [] (site_world Byte.x00 2) 200 None
           [payload Byte.x00 1000; payload Byte.x00 250]).
  - reflexivity.
  - split; [reflexivity|].
    exists 302, "http://b.test/", [payload Byte.x00 20].
    repeat split; [cbn; tauto | discriminate].
  - reflexivity.
  - reflexivity.
  - now left.
Defined.

(** X3.  A redirect whose [Location] the URL parser rejects (a relative
    path, for one) makes the fetch fail with [Invalid URL]: the target is
    given to [new URL] as it is, without the URL it is relative to, and no
    request is made for it.  The fetch may have followed undisturbed
    redirects, [hops], before; whatever else comes of the request that
    redirects to the rejected target, the failure is there at once. *)
Theorem redirect_to_unparsable_location agent timeout A A' B hops final rest w
    statusCode body :
  network w = (hops ++ final :: rest)%list ->
  undisturbed_chain (URL_parses w) agent timeout A hops A' ->
  URL_parses w A' = true ->
  final (mkRequest A' agent timeout) = Response statusCode (Some B) body ->
  In statusCode [301; 302; 307; 308] ->
  B <> "" ->
  URL_parses w B = false ->
  makeRequest A agent timeout w =
    (Throw (mkError "Invalid URL"), tick (after_requests (S (List.length hops)) w)).
Proof.
  intros Hnet Hchain Hparse Hfinal Hstatus HB HparseB.
  rewrite (makeRequest_follows agent timeout A' hops A w (final :: rest) Hnet Hchain).
  destruct (after_requests_world (List.length hops) w) as (_ & _ & Hn & Hu & _).
  assert (Hnet' : network (after_requests (List.length hops) w) = final :: rest).
  { rewrite Hn, Hnet. apply skipn_hops. }
  rewrite (makeRequest_redirect_unparsable A' B agent timeout _ final rest statusCode body
             Hnet' (eq_trans (f_equal (fun p => p A') Hu) Hparse) Hfinal Hstatus HB
             (eq_trans (f_equal (fun p => p B) Hu) HparseB)).
  rewrite <- after_requests_S.
  destruct (after_requests_world (S (List.length hops)) w) as (_ & _ & _ & Hu' & _).
  unfold makeRequest. rewrite makeRequest_on_unfold. cbv zeta.
  rewrite Hu', HparseB. reflexivity.
Qed.

Lemma relative_redirect_example :
  makeRequest "http://old.test/" None 30000 relative_redirect_world =
    (Throw (mkError "Invalid URL"), tick (after_requests 1 relative_redirect_world)).
Proof.
  apply (redirect_to_unparsable_location None 30000 "http://old.test/" "http://old.test/"
           "/new/path" [] (fun _ => Response 301 (Some "/new/path") (BodyEnd [])) []
           relative_redirect_world 301 (BodyEnd [])).
  - reflexivity.
  - reflexivity.
  - reflexivity.
  - reflexivity.
  - cbn; tauto.
  - discriminate.
  - reflexivity.
Defined.

(** ** More on [testServer] *)

(** No fetch sets or clears an interval. *)
Lemma makeRequest_on_intervals net : forall url agent timeout w,
  intervals (snd (makeRequest_on net url agent timeout w)) = intervals w.
Proof.
  induction net as [|answer net IH]; intros url agent timeout w;
    rewrite makeRequest_on_unfold; cbv zeta;
    destruct (negb (URL_parses w url)); try reflexivity.
  assert (Hreceive : forall startTime statusCode body w0,
             intervals (snd (receive startTime statusCode body w0)) = intervals w0).
  { intros startTime statusCode body w0. unfold receive.
    destruct (negb (statusCode =? 200) && negb (statusCode =? 204)); [reflexivity|].
    destruct body; reflexivity. }
  destruct (answer _) as [| |statusCode location body]; try reflexivity.
  unfold handleResponse. destruct location as [target|]; [|now rewrite Hreceive].
  destruct (redirect_status statusCode && JSString.truthy (Some target));
    [|now rewrite Hreceive].
  unfold redirected. destruct (negb (URL_parses _ target)); [now rewrite IH|].
  destruct body; try reflexivity. now rewrite IH.
Qed.

Lemma makeRequest_intervals url agent timeout w c w' :
  makeRequest url agent timeout w = (c, w') -> intervals w' = intervals w.
Proof.
  intros H. unfold makeRequest in H.
  rewrite <- (makeRequest_on_intervals (network w) url agent timeout w). now rewrite H.
Qed.

Lemma pingTest_intervals url agent w c w' :
  pingTest url agent w = (c, w') -> intervals w' = intervals w.
Proof.
  rewrite pingTest_unfold.
  destruct (makeRequest url agent 5000 (tick w)) as [[r|err] w1] eqn:E;
    apply makeRequest_intervals in E; intros [= _ <-]; exact E.
Qed.

(** The progress interval of [testServer] outlives the call exactly when
    the transfer fails. *)
Lemma testServer_intervals server agent showProgress w r w' :
  testServer server agent showProgress w = (Normal r, w') ->
  intervals w' =
    if showProgress && has_error r then S (intervals w) else intervals w.
Proof.
  rewrite testServer_unfold. cbv zeta.
  destruct (pingTest (Server.url server) agent w) as [[latency|err] w1] eqn:Hping.
  - apply pingTest_intervals in Hping.
    destruct (makeRequest (Server.url server) agent 30000 _) as [[result|err] w2] eqn:Hfetch;
      apply makeRequest_intervals in Hfetch; intros [= <- <-];
      destruct showProgress; cbn in *; lia.
  - destruct (pingTest_normal (Server.url server) agent w) as (latency & w1' & E).
    congruence.
Qed.

(** X4.  [testServer] never throws, and its result carries what the probe
    returned, whether the transfer succeeds or not.  With [showProgress]
    it sets an interval that redraws the progress line and clears it after
    a transfer that succeeded only: when the result has an error, the
    interval is left running.  Without [showProgress] no interval is set. *)
Theorem progress_interval_left_running_on_failure server agent showProgress w :
  exists r w',
    testServer server agent showProgress w = (Normal r, w') /\
    fst (pingTest (Server.url server) agent w) = Normal (TestResult.ping r) /\
    intervals w' =
      if showProgress && has_error r then S (intervals w) else intervals w.
Proof.
  destruct (testServer_tested server agent showProgress w) as (r & w' & E & _).
  exists r, w'. split; [exact E|]. split; [|exact (testServer_intervals _ _ _ _ _ _ E)].
  revert E. rewrite testServer_unfold. cbv zeta.
  destruct (pingTest_normal (Server.url server) agent w) as (latency & w1 & ->).
  destruct (makeRequest (Server.url server) agent 30000 _) as [[result|err] w2];
    intros [= <- _]; reflexivity.
Qed.

Lemma testServer_dead server agent showProgress w :
  network w = [] ->
  URL_parses w (Server.url server) = true ->
  testServer server agent showProgress w =
    (Normal (TestResult.make (Server.name server) (Server.url server)
               (Server.size server) None 0%float 0%float 0%float (Some "Timeout")),
     tick (progress_started showProgress (tick (tick w)))).
Proof.
  intros Hnet Hparse.
  assert (Hfetch : forall timeout w0,
             network w0 = [] -> URL_parses w0 (Server.url server) = true ->
             makeRequest (Server.url server) agent timeout w0 =
               (Throw (mkError "Timeout"), tick w0)).
  { intros timeout w0 Hn Hp. unfold makeRequest.
    rewrite Hn, makeRequest_on_unfold. cbv zeta. now rewrite Hp. }
  assert (Hping : pingTest (Server.url server) agent w = (Normal None, tick (tick w))).
  { rewrite pingTest_unfold, (Hfetch 5000 (tick w)); auto. }
  rewrite testServer_unfold. cbv zeta. rewrite Hping.
  rewrite (Hfetch 30000 (progress_started showProgress (tick (tick w))));
    [reflexivity| |]; destruct showProgress; assumption.
Qed.



(** X6.  A transfer that fails with an error whose message is the empty
    string gives a result whose [error] is the empty string.  The test
    [!r.error] takes such a result for a successful one: it enters the
    statistics with speed 0.  (The transfer starts in the world the probe
    has left, after the reading of the clock and the [setInterval] that
    [showProgress] adds.) *)
Theorem empty_error_message_counts_as_success server agent showProgress w latency w1 err w2 :
  pingTest (Server.url server) agent w = (Normal latency, w1) ->
  makeRequest (Server.url server) agent 30000 (progress_started showProgress w1) =
    (Throw err, w2) ->
  message err = "" ->
  exists r,
    testServer server agent showProgress w = (Normal r, w2) /\
    TestResult.error r = Some "" /\
    succeeded r = true /\
    calculate_statistics [r] =
      [ ("averageSpeed", JNumber 0%float);
        ("maxSpeed", JNumber 0%float);
        ("minSpeed", JNumber 0%float);
        ("bestServer", JString (Server.name server));
        ("worstServer", JString (Server.name server)) ].
Proof.
  intros Hping Hfetch Hmessage.
  rewrite testServer_unfold. cbv zeta. rewrite Hping, Hfetch, Hmessage.
  eexists. split; [reflexivity|]. repeat split.
Qed.

Lemma empty_error_message_example :
  exists r w',
    testServer cachefly_10MB None true (silent_failure_world 2) = (Normal r, w') /\
    TestResult.error r = Some "" /\
    succeeded r = true /\
    calculate_statistics [r] =
      [ ("averageSpeed", JNumber 0%float);
        ("maxSpeed", JNumber 0%float);
        ("minSpeed", JNumber 0%float);
        ("bestServer", JString "CacheFly 10MB");
        ("worstServer", JString "CacheFly 10MB") ].
Proof.
  destruct (empty_error_message_counts_as_success cachefly_10MB None true
              (silent_failure_world 2) None _ (mkError "") _ eq_refl eq_refl eq_refl)
    as (r & H).
  exists r. eexists. exact H.
Defined.

(** ** The proxy *)

(** X7.  When [socks-proxy-agent] cannot be loaded for the requested proxy,
    [createAgent] returns null and the run goes on without a proxy: it is
    the run that was asked for no proxy at all. *)
Theorem run_without_socks_module options p w :
  proxy options = Some p ->
  socks_proxy_agent w p = false ->
  run options w = run (mkOptions (servers options) (sizes options) None) w.
Proof.
  intros Hproxy Hsocks. unfold run, bind. rewrite Hproxy.
  cbn [proxy servers sizes createAgent].
  destruct (JSString.truthy (Some p)); [|reflexivity].
  now rewrite Hsocks.
Qed.

Lemma run_without_socks_module_example :
  run (mkOptions ["cachefly"] None (Some "socks5://127.0.0.1:1080")) (site_world Byte.x00 4) =
    run (mkOptions ["cachefly"] None None) (site_world Byte.x00 4).
Proof.
  apply (run_without_socks_module
           (mkOptions ["cachefly"] None (Some "socks5://127.0.0.1:1080"))
           "socks5://127.0.0.1:1080" (site_world Byte.x00 4)); reflexivity.
Defined.

(** ** Statistics over speeds that are not numbers *)

Lemma is_nan_spec (x : number) : is_nan x = true <-> Prim2SF x = S754_nan.
Proof.
  split.
  - intros H. destruct (Prim2SF x) eqn:E; try reflexivity;
      assert (Hn : is_nan x = false) by (apply NumberFacts.not_nan_spec; rewrite E; discriminate);
      congruence.
  - intros E. destruct (is_nan x) eqn:H; [reflexivity|].
    apply NumberFacts.not_nan_spec in H. contradiction.
Qed.

Lemma strict_eq_nan (x m : number) : is_nan m = true -> strict_eq x m = false.
Proof.
  intros H. apply is_nan_spec in H. unfold strict_eq.
  rewrite eqb_spec, H. unfold SFeqb. now destruct (Prim2SF x).
Qed.

Lemma add_nan_l (a b : number) : is_nan a = true -> is_nan (a + b)%float = true.
Proof.
  intros H. apply is_nan_spec in H. apply is_nan_spec. now rewrite add_spec, H.
Qed.

Lemma add_nan_r (a b : number) : is_nan b = true -> is_nan (a + b)%float = true.
Proof.
  intros H. apply is_nan_spec in H. apply is_nan_spec. rewrite add_spec, H.
  now destruct (Prim2SF a).
Qed.

Lemma div_nan_l (a b : number) : is_nan a = true -> is_nan (a / b)%float = true.
Proof.
  intros H. apply is_nan_spec in H. apply is_nan_spec. now rewrite div_spec, H.
Qed.

Section StickyNaN.

Variable step : number -> number -> number.
(** [step] keeps a NaN it holds and takes up a NaN it meets. *)
Hypothesis step_keeps : forall h x, is_nan h = true -> is_nan (step h x) = true.
Hypothesis step_takes : forall h x, is_nan x = true -> is_nan (step h x) = true.

Lemma fold_keeps_nan l : forall h,
  is_nan h = true -> is_nan (fold_left step l h) = true.
Proof.
  induction l as [|x l IH]; intros h Hh; cbn [fold_left]; auto.
Qed.

Lemma fold_takes_nan l : forall h,
  Exists (fun x => is_nan x = true) l -> is_nan (fold_left step l h) = true.
Proof.
  induction l as [|x l IH]; intros h Hex; inversion Hex as [? ? Hx|? ? Hl]; subst;
    cbn [fold_left].
  - apply fold_keeps_nan. now apply step_takes.
  - now apply IH.
Qed.

End StickyNaN.

Lemma max_step_keeps h x : is_nan h = true -> is_nan (max_step h x) = true.
Proof. intros H. unfold max_step. now rewrite H. Qed.

Lemma max_step_takes h x : is_nan x = true -> is_nan (max_step h x) = true.
Proof. intros H. unfold max_step. rewrite H. now destruct (is_nan h) eqn:E. Qed.

Lemma min_step_keeps h x : is_nan h = true -> is_nan (min_step h x) = true.
Proof. intros H. unfold min_step. now rewrite H. Qed.

Lemma min_step_takes h x : is_nan x = true -> is_nan (min_step h x) = true.
Proof. intros H. unfold min_step. rewrite H. now destruct (is_nan h) eqn:E. Qed.

Lemma find_name_nan validResults m : is_nan m = true -> find_name validResults m = JUndefined.
Proof.
  intros H. unfold find_name.
  destruct (find _ validResults) as [r|] eqn:E; [|reflexivity].
  apply find_some in E. destruct E as [_ E]. now rewrite (strict_eq_nan _ m H) in E.
Qed.

(** X8.  When the speed of an error-free result is NaN, the statistics
    block of [run] gives NaN for the average, the maximum and the minimum
    and leaves [bestServer] and [worstServer] undefined, while
    [displayStatistics], which reads [bestResult.name] without a guard,
    throws a [TypeError]. *)
Theorem nan_speed_statistics results r :
  In r (filter succeeded results) ->
  is_nan (TestResult.speedMbps r) = true ->
  exists average maxSpeed minSpeed,
    calculate_statistics results =
      [ ("averageSpeed", JNumber average);
        ("maxSpeed", JNumber maxSpeed);
        ("minSpeed", JNumber minSpeed);
        ("bestServer", JUndefined);
        ("worstServer", JUndefined) ] /\
    is_nan average = true /\ is_nan maxSpeed = true /\ is_nan minSpeed = true /\
    displayStatistics results =
      Throw (mkError "Cannot read properties of undefined (reading 'name')").
Proof.
  intros Hin Hnan.
  set (validResults := filter succeeded results) in *.
  set (speeds := map TestResult.speedMbps validResults).
  assert (Hex : Exists (fun x => is_nan x = true) speeds).
  { apply Exists_exists. exists (TestResult.speedMbps r). split; [|exact Hnan].
    now apply in_map. }
  assert (Hmax : is_nan (Math_max speeds) = true)
    by (apply (fold_takes_nan max_step max_step_keeps max_step_takes); exact Hex).
  assert (Hmin : is_nan (Math_min speeds) = true)
    by (apply (fold_takes_nan min_step min_step_keeps min_step_takes); exact Hex).
  assert (Havg : is_nan (average speeds) = true).
  { apply div_nan_l.
    apply (fold_takes_nan (fun a b => (a + b)%float) add_nan_l add_nan_r). exact Hex. }
  assert (Hne : validResults <> []) by (intros E; rewrite E in Hin; destruct Hin).
  exists (average speeds), (Math_max speeds), (Math_min speeds).
  split; [|repeat split; auto].
  - unfold calculate_statistics. fold validResults. fold speeds.
    rewrite (find_name_nan _ _ Hmax), (find_name_nan _ _ Hmin).
    destruct validResults; [congruence|reflexivity].
  - unfold displayStatistics. fold validResults. fold speeds.
    assert (Hfind : forall m, is_nan m = true ->
              find (fun r0 => strict_eq (TestResult.speedMbps r0) m) validResults = None).
    { intros m Hm. assert (H := find_name_nan validResults m Hm). unfold find_name in H.
      now destruct (find _ validResults). }
    rewrite (Hfind _ Hmax).
    destruct validResults; [congruence|reflexivity].
Qed.

Lemma nan_speed_example :
  exists w' average maxSpeed minSpeed,
    run (mkOptions ["cachefly"] None None) (frozen_world 4) =
      (Normal (mkRunResult frozen_results (calculate_statistics frozen_results)), w') /\
    calculate_statistics frozen_results =
      [ ("averageSpeed", JNumber average);
        ("maxSpeed", JNumber maxSpeed);
        ("minSpeed", JNumber minSpeed);
        ("bestServer", JUndefined);
        ("worstServer", JUndefined) ] /\
    is_nan average = true /\ is_nan maxSpeed = true /\ is_nan minSpeed = true /\
    displayStatistics frozen_results =
      Throw (mkError "Cannot read properties of undefined (reading 'name')").
Proof.
  destruct (nan_speed_statistics frozen_results
              (TestResult.make "CacheFly 10MB" "http://cachefly.cachefly.net/10mb.test" 10
                 (Some 0%float) nan nan 0%float None))
    as (average & maxSpeed & minSpeed & H); [now left|reflexivity|].
  eexists. exists average, maxSpeed, minSpeed.
  split; [vm_compute; reflexivity|exact H].
Defined.

(** X9.  With at least one error-free result and speeds that are numbers,
    the [minSpeed] of the statistics object is not above its [maxSpeed]. *)
Theorem min_speed_not_above_max_speed results :
  filter succeeded results <> [] ->
  all_numbers (map TestResult.speedMbps (filter succeeded results)) ->
  exists minSpeed maxSpeed,
    property (calculate_statistics results) "minSpeed" = Some (JNumber minSpeed) /\
    property (calculate_statistics results) "maxSpeed" = Some (JNumber maxSpeed) /\
    (minSpeed <=? maxSpeed)%float = true.
Proof.
  intros Hne Hnum.
  set (speeds := map TestResult.speedMbps (filter succeeded results)) in *.
  assert (Hs : speeds <> []).
  { unfold speeds. destruct (filter succeeded results); [congruence|discriminate]. }
  destruct (NumberFacts.Math_max_spec speeds Hs Hnum) as [Hmaxn [Hmaxin Hmax]].
  destruct (NumberFacts.Math_min_spec speeds Hs Hnum) as [Hminn [Hminin Hmin]].
  exists (Math_min speeds), (Math_max speeds).
  unfold calculate_statistics. fold speeds.
  destruct (filter succeeded results); [congruence|].
  repeat split. now apply Hmax.
Qed.

Lemma min_speed_not_above_max_speed_example :
  exists minSpeed maxSpeed,
    property (calculate_statistics scenario_50_200) "minSpeed" = Some (JNumber minSpeed) /\
    property (calculate_statistics scenario_50_200) "maxSpeed" = Some (JNumber maxSpeed) /\
    (minSpeed <=? maxSpeed)%float = true.
Proof.
  apply (min_speed_not_above_max_speed scenario_50_200).
  - discriminate.
  - repeat constructor.
Defined.

(** ** Grouping in [displayStatistics] *)

Section GroupBy.

Context {A V : Type}.
Variable key : A -> string.
Variable fresh : V.
Variable step : A -> V -> V.






End GroupBy.










(** ** Providers of results *)






(** ** The request for all servers *)

Lemma selected_sublist catalog sizes :
  NoDup (Object_keys catalog) ->
  forall sub, incl sub catalog ->
    selected_targets catalog (Object_keys sub) sizes =
      filter (size_selected sizes) (flat_map snd sub).
Proof.
  intros Hnd. unfold selected_targets, Object_keys.
  induction sub as [|[k l] sub IH]; intros Hincl; [reflexivity|].
  cbn [map fst flat_map snd]. rewrite filter_app, IH.
  - f_equal. unfold matching_targets.
    rewrite (In_own_property catalog Hnd k l); [reflexivity|].
    apply Hincl. now left.
  - intros e He. apply Hincl. now right.
Qed.

(** X13.  A [SpeedTest] constructed with [all] among its servers tests the
    whole catalog: [run] returns one result for every target of the catalog
    that passes the size filter, each once, in the order of the catalog,
    whatever else the list of servers holds. *)
Theorem all_servers_run_whole_catalog requested wanted via w :
  In "all" requested ->
  exists out w',
    run (SpeedTest_constructor (Some requested) wanted via) w = (Normal out, w') /\
    map target_of (results out) =
      filter (size_selected wanted) (flat_map snd TEST_SERVERS).
Proof.
  intros Hall.
  assert (Hoptions : exists via',
             SpeedTest_constructor (Some requested) wanted via =
               mkOptions (Object_keys TEST_SERVERS) wanted via').
  { unfold SpeedTest_constructor.
    replace (existsb (String.eqb "all") requested) with true; [eauto|].
    symmetry. apply existsb_exists. exists "all". split; [exact Hall|reflexivity]. }
  destruct Hoptions as (via' & ->).
  destruct (run_normal (mkOptions (Object_keys TEST_SERVERS) wanted via') w)
    as (out & w' & Hrun); [repeat constructor|].
  exists out, w'. split; [exact Hrun|].
  rewrite (run_selected _ w out w' Hrun). cbn [servers sizes].
  apply (selected_sublist TEST_SERVERS wanted TEST_SERVERS_keys_distinct TEST_SERVERS).
  apply incl_refl.
Qed.

Lemma all_servers_example :
  exists out w',
    run (SpeedTest_constructor (Some ["vultr"; "all"]) (Some [10]) None) dead_world =
      (Normal out, w') /\
    map TestResult.name (results out) =
      [ "Cloudflare 10MB"; "CacheFly 10MB"; "Bunny CDN 10MB"; "Scaleway Paris 100MB";
        "OVH 10MB" ].
Proof.
  destruct (all_servers_run_whole_catalog ["vultr"; "all"] (Some [10]) None dead_world)
    as (out & w' & Hrun & Htargets); [cbn; tauto|].
  exists out, w'. split; [exact Hrun|].
  change (map TestResult.name (results out))
    with (map (fun r => Server.name (target_of r)) (results out)).
  rewrite <- (map_map target_of Server.name), Htargets. reflexivity.
Defined.

(** ** [SpeedTest.ping] *)

Lemma ping_endpoints_normal agent endpoints : forall w,
  exists rs w',
    for_each (ping_endpoint agent) endpoints w = (Normal rs, w') /\
    map (fun r => (PingResult.name r, PingResult.url r)) rs =
      map (fun e => (PingEndpoint.name e, PingEndpoint.url e)) endpoints /\
    Forall (fun r => match PingResult.ping r with
                     | None => PingResult.error r = Some "Failed"
                     | Some _ => PingResult.error r = None
                     end) rs.
Proof.
  induction endpoints as [|e endpoints IH]; intros w; cbn [for_each].
  - exists [], w. repeat split. constructor.
  - unfold bind at 1. unfold ping_endpoint at 1. unfold bind at 1.
    destruct (pingTest_normal (PingEndpoint.url e) agent w) as (latency & w1 & ->).
    unfold ret at 1. unfold bind at 1.
    destruct (IH w1) as (rs & w2 & -> & Hnames & Herrors).
    eexists. eexists. split; [reflexivity|]. split.
    + cbn [map PingResult.name PingResult.url]. now rewrite Hnames.
    + constructor; [|exact Herrors]. now destruct latency.
Qed.

(** X14.  [ping] never throws and returns one entry per ping endpoint, in
    the order of the list and with its name and URL; the entry of an
    endpoint whose probe failed has a null latency and the error [Failed],
    every other entry has a latency and a null error. *)
Theorem ping_reports_every_endpoint options w :
  exists rs w',
    SpeedTest_ping options w = (Normal rs, w') /\
    map (fun r => (PingResult.name r, PingResult.url r)) rs =
      map (fun e => (PingEndpoint.name e, PingEndpoint.url e)) PING_ENDPOINTS /\
    Forall (fun r => match PingResult.ping r with
                     | None => PingResult.error r = Some "Failed"
                     | Some _ => PingResult.error r = None
                     end) rs.
Proof.
  unfold SpeedTest_ping, bind.
  destruct (createAgent_normal (proxy options) true w) as (agent & ->).
  apply ping_endpoints_normal.
Qed.

(** ** [parseArgs] *)

Lemma prefix_slice p : forall s,
  prefix p s = true -> s = p ++ slice (String.length p) s.
Proof.
  induction p as [|a p IH]; intros s H; [reflexivity|].
  destruct s as [|b s]; cbn [prefix] in H; [discriminate|].
  destruct (ascii_dec a b) as [->|]; [|discriminate].
  cbn [String.length slice append]. f_equal. now apply IH.
Qed.

Section ParseArgsFacts.

Variable toLowerCase : string -> string.
Variable parseInt : string -> option Z.

Lemma parse_arg_unrecognized options arg :
  recognized arg = false -> parse_arg toLowerCase parseInt options arg = options.
Proof.
  unfold recognized, parse_arg. intros H.
  repeat (apply orb_false_iff in H; destruct H as [H ?]).
  repeat match goal with E : _ = false |- _ => rewrite E; clear E end.
  reflexivity.
Qed.

Lemma parse_arg_keeps_proxy options arg :
  is_proxy_arg arg = false ->
  cli_proxy (parse_arg toLowerCase parseInt options arg) = cli_proxy options.
Proof.
  unfold is_proxy_arg, proxy_value, parse_arg. intros H.
  destruct (prefix "--proxy=" arg); [discriminate|].
  destruct (prefix "socks://" arg || prefix "socks4://" arg || prefix "socks5://" arg);
    [discriminate|].
  repeat match goal with |- context [if ?c then _ else _] => destruct c end; reflexivity.
Qed.

Lemma fold_parse_arg_keeps_proxy args : forall options,
  Forall (fun arg => is_proxy_arg arg = false) args ->
  cli_proxy (fold_left (parse_arg toLowerCase parseInt) args options) = cli_proxy options.
Proof.
  induction args as [|arg args IH]; intros options Hargs; [reflexivity|].
  inversion Hargs as [|? ? Harg Hrest]; subst. cbn [fold_left].
  rewrite IH by assumption. now apply parse_arg_keeps_proxy.
Qed.

Lemma parse_arg_sets_proxy options arg v :
  proxy_value arg = Some v ->
  cli_proxy (parse_arg toLowerCase parseInt options arg) = Some v.
Proof.
  unfold proxy_value. destruct (prefix "--proxy=" arg) eqn:Hproxy.
  - intros [= <-]. apply prefix_slice in Hproxy. cbn [String.length] in Hproxy.
    remember (slice 8 arg) as rest eqn:Hrest. clear Hrest. subst arg.
    now destruct rest.
  - destruct (prefix "socks://" arg || prefix "socks4://" arg || prefix "socks5://" arg)
      eqn:Hsocks; [|discriminate].
    intros [= <-]. unfold parse_arg. rewrite Hsocks.
    destruct arg as [|c arg]; [discriminate Hsocks|].
    cbn [prefix] in Hsocks. destruct (ascii_dec "s" c) as [<-|]; [|discriminate Hsocks].
    reflexivity.
Qed.

(** X15.  A proxy given on the command line, as [--proxy=...] with a
    non-empty value or as a [socks://], [socks4://] or [socks5://] URL,
    wins over the environment variable [SOCKS_PROXY] when no later
    argument sets the proxy again; and without any such argument the proxy
    is the non-empty [SOCKS_PROXY], or null. *)
Theorem command_line_proxy_wins :
  (forall before arg after SOCKS_PROXY v,
      proxy_value arg = Some v -> v <> "" ->
      Forall (fun a => is_proxy_arg a = false) after ->
      cli_proxy (parseArgs toLowerCase parseInt (before ++ arg :: after) SOCKS_PROXY) =
        Some v) /\
  (forall args SOCKS_PROXY,
      Forall (fun a => is_proxy_arg a = false) args ->
      cli_proxy (parseArgs toLowerCase parseInt args SOCKS_PROXY) =
        if JSString.truthy SOCKS_PROXY then SOCKS_PROXY else None).
Proof.
  split.
  - intros before arg after SOCKS_PROXY v Hv Hne Hafter. unfold parseArgs.
    rewrite fold_left_app. cbn [fold_left].
    assert (H : cli_proxy
                  (fold_left (parse_arg toLowerCase parseInt) after
                     (parse_arg toLowerCase parseInt
                        (fold_left (parse_arg toLowerCase parseInt) before
                           (mkCliOptions None ["cachefly"] None false false false)) arg)) =
                Some v).
    { rewrite fold_parse_arg_keeps_proxy by assumption. now apply parse_arg_sets_proxy. }
    rewrite H. apply truthy_some in Hne. rewrite Hne. cbn [negb andb]. exact H.
  - intros args SOCKS_PROXY Hargs. unfold parseArgs.
    assert (H := fold_parse_arg_keeps_proxy args
                   (mkCliOptions None ["cachefly"] None false false false) Hargs).
    cbn [cli_proxy] in H. rewrite H. cbn [JSString.truthy negb andb].
    destruct (JSString.truthy SOCKS_PROXY); [reflexivity|exact H].
Qed.

(** X16.  An argument that [parseArgs] does not recognize is ignored: the
    options are those read from the command line without it.  No argument
    makes [parseArgs] fail. *)
Theorem unrecognized_argument_ignored before arg after SOCKS_PROXY :
  recognized arg = false ->
  parseArgs toLowerCase parseInt (before ++ arg :: after) SOCKS_PROXY =
    parseArgs toLowerCase parseInt (before ++ after) SOCKS_PROXY.
Proof.
  intros H. unfold parseArgs. rewrite !fold_left_app. cbn [fold_left].
  now rewrite parse_arg_unrecognized.
Qed.

End ParseArgsFacts.

Lemma command_line_proxy_example :
  cli_proxy (parseArgs sample_toLowerCase sample_parseInt
               ["--ping"; "socks5://10.0.0.1:1080"; "--servers=OVH"; "-j"]
               (Some "socks5://from.env:9")) =
    Some "socks5://10.0.0.1:1080".
Proof.
  apply (proj1 (command_line_proxy_wins sample_toLowerCase sample_parseInt)
           ["--ping"] "socks5://10.0.0.1:1080" ["--servers=OVH"; "-j"]).
  - reflexivity.
  - discriminate.
  - repeat constructor.
Defined.

Lemma unrecognized_argument_example :
  parseArgs sample_toLowerCase sample_parseInt
    ["--servers=OVH"; "--verbose"; "--sizes=10MB"] None =
  parseArgs sample_toLowerCase sample_parseInt ["--servers=OVH"; "--sizes=10MB"] None.
Proof.
  apply (unrecognized_argument_ignored sample_toLowerCase sample_parseInt
           ["--servers=OVH"] "--verbose" ["--sizes=10MB"] None).
  reflexivity.
Defined.

(** ** [main] *)


Lemma for_each_dead agent showProgress tests : forall w,
  network w = [] ->
  (forall u, URL_parses w u = true) ->
  exists results w',
    for_each (fun test => testServer test agent showProgress) tests w =
      (Normal results, w') /\
    List.length results = List.length tests /\
    Forall (fun r => TestResult.error r = Some "Timeout") results /\
    intervals w' =
      (intervals w + if showProgress then List.length tests else 0)%nat.
Proof.
  induction tests as [|test tests IH]; intros w Hnet Hparse; cbn [for_each].
  - exists [], w. repeat split; [constructor|destruct showProgress; cbn; lia].
  - unfold bind at 1.
    rewrite (testServer_dead test agent showProgress w Hnet (Hparse _)).
    set (w1 := tick (progress_started showProgress (tick (tick w)))).
    assert (Hnet1 : network w1 = []) by (destruct showProgress; exact Hnet).
    assert (Hparse1 : forall u, URL_parses w1 u = true)
      by (destruct showProgress; exact Hparse).
    assert (Hint1 : intervals w1 = (intervals w + if showProgress then 1 else 0)%nat)
      by (destruct showProgress; cbn; lia).
    destruct (IH w1 Hnet1 Hparse1) as (results & w' & E & Hlen & Herr & Hint).
    unfold bind. rewrite E. eexists. eexists. split; [reflexivity|].
    split; [cbn [List.length]; congruence|]. split; [now constructor|].
    rewrite Hint, Hint1. destruct showProgress; cbn [List.length]; lia.
Qed.


Section MainFacts.

Variable toFixed : number -> Z -> string.

Lemma displayResults_failed results :
  Forall (fun r => TestResult.error r = Some "Timeout") results ->
  displayResults toFixed results = Normal tt.
Proof.
  induction 1 as [|r results Hr _ IH]; cbn [displayResults]; [reflexivity|].
  now rewrite Hr.
Qed.

Lemma no_success_among_failed results :
  Forall (fun r => TestResult.error r = Some "Timeout") results ->
  filter succeeded results = [].
Proof.
  induction 1 as [|r results Hr _ IH]; cbn [filter]; [reflexivity|].
  unfold succeeded at 1. now rewrite Hr.
Qed.


(** X18.  When the requested servers and sizes select no target, [main]
    ends with code 1 without reading the clock or making a request, in
    either output mode. *)
Theorem no_target_exits_with_1 options w :
  cli_help options = false ->
  Forall (fun key => inherited_key key = false) (cli_servers options) ->
  selected_targets TEST_SERVERS (cli_servers options) (integer_sizes (cli_sizes options)) = [] ->
  main_process toFixed options w = (Normal (mkEnding (Some 1) None), w).
Proof.
  intros Hhelp Hkeys Hnone. unfold main_process, try_catch, main, bind, lift.
  rewrite Hhelp.
  destruct (createAgent_normal (cli_proxy options) true w) as (agent & ->).
  rewrite build_tests_spec, (no_inherited_property _ Hkeys), Hnone. reflexivity.
Qed.

(** X19.  The exit code does not tell failed tests.  When at least one
    target is selected and the network answers no request, so that every
    target fails with [Timeout], a process started without any interval
    ends with code 0 in JSON mode and in table mode without [--ping].  In
    table mode with [--ping] it does not end at all: the progress
    intervals of the failed transfers are never cleared, and [main]
    returns without a call of [process.exit]. *)
Theorem exit_code_when_all_targets_fail options w :
  cli_help options = false ->
  Forall (fun key => inherited_key key = false) (cli_servers options) ->
  selected_targets TEST_SERVERS (cli_servers options) (integer_sizes (cli_sizes options)) <> [] ->
  network w = [] ->
  (forall u, URL_parses w u = true) ->
  intervals w = 0%nat ->
  exists ending w',
    main_process toFixed options w = (Normal ending, w') /\
    exitCode ending =
      if negb (cli_json options) && cli_ping options then None else Some 0.
Proof.
  intros Hhelp Hkeys Hsome Hnet Hparse Hint.
  unfold main_process, try_catch, main, bind, lift. rewrite Hhelp.
  destruct (createAgent_normal (cli_proxy options) true w) as (agent & ->).
  rewrite build_tests_spec, (no_inherited_property _ Hkeys). cbn [app].
  destruct (selected_targets _ _ _) as [|test tests] eqn:Hsel; [congruence|].
  cbn [List.length Nat.eqb].
  destruct (for_each_dead agent (negb (cli_json options) && cli_ping options)
              (test :: tests) w Hnet Hparse) as (results & w' & E & _ & Herr & Hint').
  rewrite E. rewrite Hint in Hint'. cbn [List.length Nat.add] in Hint'.
  assert (Hend : forall json,
             return_from_main json w' =
               (Normal (mkEnding (if negb (cli_json options) && cli_ping options
                                  then None else Some 0) json), w')).
  { intros json. unfold return_from_main. rewrite Hint'.
    now destruct (negb (cli_json options) && cli_ping options). }
  destruct (cli_json options).
  - rewrite Hend. eauto.
  - rewrite (displayResults_failed results Herr).
    unfold displayStatistics. rewrite (no_success_among_failed results Herr).
    cbn [List.length Nat.eqb]. rewrite Hend. eauto.
Qed.

End MainFacts.


Lemma no_target_example :
  main_process sample_toFixed
    (parseArgs sample_toLowerCase sample_parseInt ["--servers=linode"; "--sizes=10"] None)
    (site_world Byte.x00 4) =
  (Normal (mkEnding (Some 1) None), site_world Byte.x00 4).
Proof.
  apply (no_target_exits_with_1 sample_toFixed
           (parseArgs sample_toLowerCase sample_parseInt
              ["--servers=linode"; "--sizes=10"] None) (site_world Byte.x00 4)).
  - reflexivity.
  - repeat constructor.
  - reflexivity.
Defined.

Lemma all_targets_failing_example :
  (exists ending w',
     main_process sample_toFixed
       (parseArgs sample_toLowerCase sample_parseInt ["--servers=all"] None) dead_world =
       (Normal ending, w') /\
     exitCode ending = Some 0) /\
  (exists ending w',
     main_process sample_toFixed
       (parseArgs sample_toLowerCase sample_parseInt ["--servers=all"; "--ping"] None)
       dead_world =
       (Normal ending, w') /\
     exitCode ending = None).
Proof.
  split.
  - apply (exit_code_when_all_targets_fail sample_toFixed
             (parseArgs sample_toLowerCase sample_parseInt ["--servers=all"] None)
             dead_world);
      [reflexivity | repeat constructor | discriminate | reflexivity | reflexivity
      | reflexivity].
  - apply (exit_code_when_all_targets_fail sample_toFixed
             (parseArgs sample_toLowerCase sample_parseInt ["--servers=all"; "--ping"] None)
             dead_world);
      [reflexivity | repeat constructor | discriminate | reflexivity | reflexivity
      | reflexivity].
Defined.

(** ** A target that answers *)

(** X20.  For a target that answers both requests with status 200 or 204
    and a complete body, [testServer] fetches the URL twice: first the
    probe, with timeout 5000, whose latency runs from the call of
    [pingTest] to the end of the whole body of the first answer; then the
    transfer, with timeout 30000, whose bytes, duration and speeds come
    from the second answer alone.  With [showProgress], [testServer]
    reads the clock once more between the two, and the progress interval
    is cleared at the end. *)
Theorem testServer_fetches_twice server agent (showProgress : bool) w probe transfer rest
    status1 location1 chunks1 status2 location2 chunks2 :
  network w = probe :: transfer :: rest ->
  URL_parses w (Server.url server) = true ->
  probe (mkRequest (Server.url server) agent 5000) =
    Response status1 location1 (BodyEnd chunks1) ->
  status1 = 200 \/ status1 = 204 ->
  transfer (mkRequest (Server.url server) agent 30000) =
    Response status2 location2 (BodyEnd chunks2) ->
  status2 = 200 \/ status2 = 204 ->
  let extra := if showProgress then 1%nat else 0%nat in
  exists r w',
    testServer server agent showProgress w = (Normal r, w') /\
    TestResult.ping r = Some (clock w (ticks w + 3) - clock w (ticks w))%float /\
    TestResult.duration r =
      ((clock w (ticks w + 5 + extra) - clock w (ticks w + 4 + extra)) / 1000)%float /\
    TestResult.speedMbps r =
      (number_of_Z (total_length chunks2) * 8 / TestResult.duration r / 1000000)%float /\
    TestResult.speedMBps r =
      (number_of_Z (total_length chunks2) / TestResult.duration r / 1048576)%float /\
    TestResult.error r = None /\
    network w' = rest /\ ticks w' = (ticks w + 6 + extra)%nat /\
    intervals w' = intervals w.
Proof.
  intros Hnet Hparse Hprobe Hs1 Htransfer Hs2 extra.
  assert (Hping :
    pingTest (Server.url server) agent w =
      (Normal (Some (clock w (ticks w + 3) - clock w (ticks w))%float),
       tick (tick (after_request (tick w))))).
  { rewrite pingTest_unfold.
    rewrite (makeRequest_direct (Server.url server) agent 5000 (tick w) probe
               (transfer :: rest) status1 location1 chunks1 Hnet Hparse Hprobe Hs1).
    cbn [tick after_request with_ticks with_network clock ticks].
    replace (S (S (S (ticks w)))) with (ticks w + 3)%nat by lia. reflexivity. }
  rewrite testServer_unfold. cbv zeta. rewrite Hping.
  set (w1 := progress_started showProgress (tick (tick (after_request (tick w))))).
  assert (Hnet' : network w1 = transfer :: rest).
  { unfold w1. destruct showProgress; cbn; now rewrite Hnet. }
  assert (Hparse' : URL_parses w1 (Server.url server) = true).
  { unfold w1. destruct showProgress; exact Hparse. }
  rewrite (makeRequest_direct (Server.url server) agent 30000 _ transfer rest
             status2 location2 chunks2 Hnet' Hparse' Htransfer Hs2).
  eexists. eexists. split; [reflexivity|].
  unfold w1, extra.
  destruct showProgress;
    cbn [TestResult.ping TestResult.duration TestResult.speedMbps TestResult.speedMBps
         TestResult.error TestResult.set_speed TestResult.set_ping
         FetchResult.duration FetchResult.speedMbps FetchResult.speedMBps
         progress_started progress_stopped tick after_request
         with_ticks with_network with_intervals clock ticks network intervals Nat.pred];
    rewrite ?Nat.add_0_r;
    replace (ticks w + 5 + 1)%nat with (S (S (S (S (S (S (ticks w))))))) by lia;
    replace (ticks w + 4 + 1)%nat with (S (S (S (S (S (ticks w)))))) by lia;
    replace (ticks w + 6 + 1)%nat with (S (S (S (S (S (S (S (ticks w)))))))) by lia;
    replace (ticks w + 5)%nat with (S (S (S (S (S (ticks w)))))) by lia;
    replace (ticks w + 4)%nat with (S (S (S (S (ticks w))))) by lia;
    replace (ticks w + 6)%nat with (S (S (S (S (S (S (ticks w))))))) by lia;
    rewrite Hnet; repeat split.
Qed.

Lemma testServer_fetches_twice_example :
  exists r w',
    testServer (Server.make "B" "http://b.test/" 10) None true (site_world Byte.x00 2) =
      (Normal r, w') /\
    TestResult.ping r = Some (steady_clock 3 - steady_clock 0)%float /\
    TestResult.duration r = ((steady_clock 6 - steady_clock 5) / 1000)%float /\
    TestResult.speedMbps r =
      (number_of_Z 1250 * 8 / TestResult.duration r / 1000000)%float /\
    TestResult.speedMBps r =
      (number_of_Z 1250 / TestResult.duration r / 1048576)%float /\
    TestResult.error r = None /\
    network w' = [] /\ ticks w' = 7%nat /\ intervals w' = 0%nat.
Proof.
  apply (testServer_fetches_twice (Server.make "B" "http://b.test/" 10) None true
           (site_world Byte.x00 2) (site Byte.x00) (site Byte.x00) []
           200 None [payload Byte.x00 1000; payload Byte.x00 250]
           200 None [payload Byte.x00 1000; payload Byte.x00 250]);
    try reflexivity; now left.
Defined.

(** ** [displayResults] *)

(** X21.  [displayResults] throws a [RangeError] exactly when some
    error-free row has a duration that [toFixed(2)] renders with more than
    eight characters (the padding count [8 - length] is then negative);
    rows with an error never make it throw. *)
Theorem displayResults_throws_iff toFixed results :
  (exists err, displayResults toFixed results = Throw err) <->
  exists r, In r results /\ JSString.truthy (TestResult.error r) = false /\
            8 < Z.of_nat (String.length (toFixed (TestResult.duration r) 2)).
Proof.
  induction results as [|r results IH]; cbn [displayResults].
  - split; [intros [err H]; discriminate|intros (r & [] & _)].
  - destruct (JSString.truthy (TestResult.error r)) eqn:Herror.
    + rewrite IH. split.
      * intros (r' & Hin & H). exists r'. split; [now right|exact H].
      * intros (r' & [<-|Hin] & Ht & Hlen); [congruence|]. now exists r'.
    + destruct (Z.ltb_spec (8 - Z.of_nat (String.length (toFixed (TestResult.duration r) 2))) 0)
        as [Hneg|Hpos].
      * split; [|eauto]. intros _. exists r. repeat split; [now left|exact Herror|lia].
      * rewrite IH. split.
        -- intros (r' & Hin & H). exists r'. split; [now right|exact H].
        -- intros (r' & [<-|Hin] & Ht & Hlen); [lia|]. now exists r'.
Qed.
